(** * Drone Vision camera screen: the scan loop, the cover transform and the
      session state of [CameraScreen]

    Shallow embedding of the React Native component [CameraScreen]:
    [addLog], [processFrame] and the auto-scan effect with its [loop].
    Line numbers are those of the source of the camera screen.

    Conventions of the embedding.
    - JavaScript numbers that hold coordinates, ratios, rates and random
      draws are IEEE-754 binary64 values: [float] (Rocq's primitive floats),
      so that a division by zero gives [infinity] or [nan] as it does in
      the source language.
    - [Date.now()] values and the frame counter are integers far below
      2^53, where binary64 arithmetic is exact: they are [Z].
    - React state is the record [State]; the setters are applied in program
      order inside one run-to-completion segment (React batches them into
      one commit), so a segment is one atomic transition.
    - A function created during a render reads the state variables of that
      render: the record [Render] is that snapshot.  Setters, refs and the
      variables of an effect ([isActive], [lastFrameTime]) are live.
    - [async] functions are cut at their [await]s: [Stage] lists the
      suspension points of [processFrame], [LoopPhase] those of [loop].
    - An event carries one reading of the clock, which stands for every
      [Date.now()] of the segment that the event starts.  No statement
      relies on two readings of one segment being equal.
    - A [string] holds the UTF-8 bytes of a JavaScript string; lengths and
      [substring] count UTF-16 code units, as the engine does. *)

From Stdlib Require Import Floats ZArith List String Ascii Bool Lia DecimalString.
Import ListNotations.

Set Warnings "-inexact-float".

Local Open Scope string_scope.
Local Open Scope Z_scope.

(** ** What the JavaScript runtime and the device provide *)

Module JS.

(** [Math.max] on two numbers: NaN is contagious and +0 is larger than -0. *)
Definition Math_max (a b : float) : float :=
  if (PrimFloat.is_nan a || PrimFloat.is_nan b)%bool then nan
  else if (a <? b)%float then b
  else if (b <? a)%float then a
  else if PrimFloat.get_sign a then b else a.

(** Truthiness of a number: everything but 0, -0 and NaN. *)
Definition truthy (x : float) : bool :=
  negb (PrimFloat.is_zero x || PrimFloat.is_nan x).

(** An integer-valued number as a binary64 value. *)
Definition of_Z (z : Z) : float :=
  if z <? 0 then (- PrimFloat.of_uint63 (Uint63.of_Z (- z)))%float
  else PrimFloat.of_uint63 (Uint63.of_Z z).

(** [n.toString()] and [`${n}`] for an integer-valued number. *)
Definition toString (z : Z) : string := NilZero.string_of_int (Z.to_int z).

(** A [string] holds the UTF-8 bytes of a JavaScript string, a surrogate
    that stands alone as the three bytes of its code unit.  The engine
    counts UTF-16 code units: the character that starts with byte [c] takes
    [charBytes c] bytes and [charUnits c] code units (two for a character
    above U+FFFF, which is four bytes long). *)
Definition charBytes (c : ascii) : nat :=
  let n := nat_of_ascii c in
  if (n <? 192)%nat then 1%nat
  else if (n <? 224)%nat then 2%nat
  else if (n <? 240)%nat then 3%nat
  else if (n <? 248)%nat then 4%nat
  else 1%nat.

Definition charUnits (c : ascii) : nat :=
  let n := nat_of_ascii c in
  if ((240 <=? n)%nat && (n <? 248)%nat)%bool then 2%nat else 1%nat.

(** The code units of [s], [skip] bytes into a character. *)
Fixpoint lengthFrom (skip : nat) (s : string) : nat :=
  match s with
  | EmptyString => 0%nat
  | String c rest =>
      match skip with
      | S k => lengthFrom k rest
      | O => (charUnits c + lengthFrom (charBytes c - 1) rest)%nat
      end
  end.

(** [s.length]. *)
Definition length (s : string) : nat := lengthFrom 0 s.

(** The first code unit of the four-byte character that starts with [c]:
    the high surrogate 0xD800 + ((code point - 0x10000) >> 10), as the
    three bytes 0xED, 0xA0 + its bits 9..6, 0x80 + its bits 5..0. *)
Definition highSurrogate (c : ascii) (rest : string) : string :=
  let b0 := nat_of_ascii c in
  let b1 := match rest with String x _ => nat_of_ascii x | _ => 128%nat end in
  let b2 :=
    match rest with
    | String _ (String y _) => nat_of_ascii y
    | _ => 128%nat
    end in
  let w := ((b0 mod 8) * 256 + (b1 mod 64) * 4 + (b2 mod 64) / 16 - 64)%nat in
  String (ascii_of_nat 237)
    (String (ascii_of_nat (160 + w / 64))
       (String (ascii_of_nat (128 + w mod 64)) EmptyString)).

(** The first [n] code units of [s], [skip] bytes into a character; a
    character of two code units of which only one is wanted leaves its
    high surrogate. *)
Fixpoint takeFrom (n skip : nat) (s : string) : string :=
  match s with
  | EmptyString => EmptyString
  | String c rest =>
      match skip with
      | S k => String c (takeFrom n k rest)
      | O =>
          if (charUnits c <=? n)%nat
          then String c (takeFrom (n - charUnits c) (charBytes c - 1) rest)
          else match n with
               | O => EmptyString
               | S _ => highSurrogate c rest
               end
      end
  end.

(** [s.substring(0, n)]. *)
Definition substring0 (n : nat) (s : string) : string := takeFrom n 0 s.

(** [`${x}`] for a property that may be missing. *)
Definition template (o : option string) : string :=
  match o with Some s => s | None => "undefined" end.

End JS.

(** The window size read once from [Dimensions.get('window')], and the
    string functions of the engine that the screen calls. *)
Record Platform := {
  SCREEN_WIDTH : float;
  SCREEN_HEIGHT : float;
  toFixed1 : float -> string;          (* x.toFixed(1) *)
  toUpperCase : string -> string;      (* s.toUpperCase() *)
  typeErrorMessage : string;           (* message of undefined.toUpperCase() *)
  abortMessage : string                (* message of the AbortError of fetch *)
}.

(** ** Data *)

(** [data.best_match]: every property may be missing in the JSON body. *)
Record Match := {
  label : option string;
  confidence : option float;
  bbox : option (list float);
  details : list (string * string)
}.

(** The value of [activeBox]: [{ bbox: scaledBox, label: match.label }]. *)
Record ActiveBox := {
  box : list float;
  boxLabel : option string
}.

(** Calls that leave the component: haptics, speech, the alert, the console. *)
Inductive Output :=
| HapticImpact
| HapticNotification
| Speak (text : string)
| AlertConnectionError
| ConsoleLog (text : string).

(** The [useState] cells of [CameraScreen] that the scan logic touches
    ([zoom] and [torch] only feed the camera view), and the outputs made so
    far, most recent first. *)
Record State := {
  scanning : bool;
  result : option Match;
  isAutoScan : bool;
  isConnected : bool;
  logs : list string;
  frameCounter : Z;
  fps : float;
  activeBox : option ActiveBox;
  outputs : list Output
}.

Definition setScanning (v : bool) (s : State) : State :=
  {| scanning := v; result := result s; isAutoScan := isAutoScan s;
     isConnected := isConnected s; logs := logs s;
     frameCounter := frameCounter s; fps := fps s;
     activeBox := activeBox s; outputs := outputs s |}.

Definition setResult (v : option Match) (s : State) : State :=
  {| scanning := scanning s; result := v; isAutoScan := isAutoScan s;
     isConnected := isConnected s; logs := logs s;
     frameCounter := frameCounter s; fps := fps s;
     activeBox := activeBox s; outputs := outputs s |}.

Definition setIsAutoScan (f : bool -> bool) (s : State) : State :=
  {| scanning := scanning s; result := result s; isAutoScan := f (isAutoScan s);
     isConnected := isConnected s; logs := logs s;
     frameCounter := frameCounter s; fps := fps s;
     activeBox := activeBox s; outputs := outputs s |}.

Definition setIsConnected (v : bool) (s : State) : State :=
  {| scanning := scanning s; result := result s; isAutoScan := isAutoScan s;
     isConnected := v; logs := logs s;
     frameCounter := frameCounter s; fps := fps s;
     activeBox := activeBox s; outputs := outputs s |}.

Definition setLogs (f : list string -> list string) (s : State) : State :=
  {| scanning := scanning s; result := result s; isAutoScan := isAutoScan s;
     isConnected := isConnected s; logs := f (logs s);
     frameCounter := frameCounter s; fps := fps s;
     activeBox := activeBox s; outputs := outputs s |}.

Definition setFrameCounter (f : Z -> Z) (s : State) : State :=
  {| scanning := scanning s; result := result s; isAutoScan := isAutoScan s;
     isConnected := isConnected s; logs := logs s;
     frameCounter := f (frameCounter s); fps := fps s;
     activeBox := activeBox s; outputs := outputs s |}.

Definition setFps (v : float) (s : State) : State :=
  {| scanning := scanning s; result := result s; isAutoScan := isAutoScan s;
     isConnected := isConnected s; logs := logs s;
     frameCounter := frameCounter s; fps := v;
     activeBox := activeBox s; outputs := outputs s |}.

Definition setActiveBox (v : option ActiveBox) (s : State) : State :=
  {| scanning := scanning s; result := result s; isAutoScan := isAutoScan s;
     isConnected := isConnected s; logs := logs s;
     frameCounter := frameCounter s; fps := fps s;
     activeBox := v; outputs := outputs s |}.

Definition emit (o : Output) (s : State) : State :=
  {| scanning := scanning s; result := result s; isAutoScan := isAutoScan s;
     isConnected := isConnected s; logs := logs s;
     frameCounter := frameCounter s; fps := fps s;
     activeBox := activeBox s; outputs := o :: outputs s |}.

(** [useState] initial values. *)
Definition initialState : State :=
  {| scanning := false; result := None; isAutoScan := false;
     isConnected := true;
     logs := ["SYSTEM INITIALIZED..."; "SENSORS ONLINE"];
     frameCounter := 0; fps := 0%float;
     activeBox := None; outputs := [] |}.

(** ** [addLog] *)

(** [[text, ...prev].slice(0, 6)] *)
Definition pushLog (text : string) (prev : list string) : list string :=
  firstn 6 (text :: prev).

Definition addLog (text : string) (s : State) : State :=
  setLogs (pushLog text) s.

(** A run of appends, oldest first. *)
Definition addLogs (texts : list string) (prev : list string) : list string :=
  fold_left (fun acc text => pushLog text acc) texts prev.

(** ** The cover transform of [processFrame] *)

Record Photo := {
  width : float;
  height : float
}.

Record Cover := {
  scale : float;
  offsetX : float;
  offsetY : float
}.

Section Screen.

Context (dev : Platform).

(** Lines 138-144: the scale and the centring offsets. *)
Definition cover (photo : Photo) : Cover :=
  let scale := JS.Math_max (SCREEN_WIDTH dev / width photo)
                           (SCREEN_HEIGHT dev / height photo) in
  let scaledWidth := (width photo * scale)%float in
  let scaledHeight := (height photo * scale)%float in
  {| scale := scale;
     offsetX := ((SCREEN_WIDTH dev - scaledWidth) / 2)%float;
     offsetY := ((SCREEN_HEIGHT dev - scaledHeight) / 2)%float |}.

(** Lines 201-207: [const [bx1, by1, bx2, by2] = match.bbox] and the
    scaled box; a missing array element is [undefined], which the
    arithmetic turns into NaN. *)
Definition scaledBox (c : Cover) (bbox : list float) : list float :=
  let bx1 := nth 0 bbox nan in
  let by1 := nth 1 bbox nan in
  let bx2 := nth 2 bbox nan in
  let by2 := nth 3 bbox nan in
  [ (bx1 * scale c + offsetX c)%float;
    (by1 * scale c + offsetY c)%float;
    (bx2 * scale c + offsetX c)%float;
    (by2 * scale c + offsetY c)%float ].


(** ** [processFrame]

    The state variables that a [processFrame] closure reads are those of
    the render that created it. *)

Record Render := {
  seenScanning : bool;
  seenIsAutoScan : bool;
  seenFrameCounter : Z
}.

Definition render (s : State) : Render :=
  {| seenScanning := scanning s;
     seenIsAutoScan := isAutoScan s;
     seenFrameCounter := frameCounter s |}.

Inductive Endpoint := PREDICT_ENDPOINT | STREAM_ENDPOINT.

(** The options handed to [takePictureAsync]. *)
Record CaptureOptions := {
  quality : float;
  captureScale : float
}.

(** What [fetch] is called with, and the delay of the abort timer. *)
Record Request := {
  endpoint : Endpoint;
  fileName : string;
  frame_idx : option string;
  abortAfter : Z
}.

(** The three [await]s of [processFrame], with the local variables that
    are live across each. *)
Inductive Stage :=
| AwaitCapture (startTime : Z) (options : CaptureOptions)
| AwaitFetch (startTime : Z) (c : Cover) (request : Request)
| AwaitJson (startTime : Z) (c : Cover).

(** A call of [processFrame] that is suspended at an [await]. *)
Record Invocation := {
  isManualScan : bool;
  closure : Render;
  stage : Stage
}.

Definition suspend (inv : Invocation) (st : Stage) : Invocation :=
  {| isManualScan := isManualScan inv; closure := closure inv; stage := st |}.

(** What the awaited promises settle with. *)
Inductive CaptureResult :=
| CaptureRejected (message : string)
| Captured (photo : Photo).

Inductive FetchResult :=
| FetchAborted                         (* controller.abort() ran *)
| FetchRejected (message : string)     (* transport failure *)
| Response (ok : bool) (status : Z).

Record Data := {
  skipped : bool;
  metrics_fps : option float;
  best_match : option Match
}.

Inductive JsonResult :=
| JsonRejected (message : string)      (* body is not a JSON object *)
| Json (data : Data).

Inductive Settlement :=
| CaptureSettled (r : CaptureResult)
| FetchSettled (r : FetchResult)
| JsonSettled (r : JsonResult) (random : float).

(** How a call of [processFrame] ended: through the [catch] block
    ([Failure]), through the [return] of the skipped branch ([Skipped]),
    or by reaching the end of the [try] block ([Success]). *)
Inductive Outcome :=
| Success (m : option Match)
| Skipped
| Failure (message : string).

Inductive Control :=
| Suspended (inv : Invocation)
| Returned (o : Outcome).

Definition noMatch : Match :=
  {| label := Some "No Match"; confidence := None; bbox := None;
     details := [("emoji", "ðŸ¤”"); ("fact", "Sensors calibrating...")] |}.

(** Lines 235-241. *)
Definition catch_block (manual : bool) (message : string) (s : State) : State :=
  let s := emit (ConsoleLog ("Scan Error: " ++ message)) s in
  let s := setIsConnected false s in
  let s := addLog ("ERROR: " ++ JS.substring0 20 message) s in
  if manual then emit AlertConnectionError s else s.

(** Lines 242-244. *)
Definition finally_block (s : State) : State := setScanning false s.

Definition throw (inv : Invocation) (message : string) (s : State)
  : State * Control :=
  (finally_block (catch_block (isManualScan inv) message s),
   Returned (Failure message)).

(** Lines 112-134: from the call to the first [await].  [None]: one of
    the two guards returned. *)
Definition processFrame (r : Render) (manual : bool) (cameraRef : bool)
    (now : Z) (s : State) : option (State * Invocation) :=
  if negb cameraRef then None
  else if seenScanning r && negb (seenIsAutoScan r) then None
  else
    let s := setScanning true s in
    let s := if manual then setResult None s else s in
    let s := if manual then emit HapticImpact s else s in
    let options :=
      {| quality := if seenIsAutoScan r then 0.5%float else 0.8%float;
         captureScale := if seenIsAutoScan r then 0.5%float else 1%float |} in
    Some (s, {| isManualScan := manual; closure := r;
                stage := AwaitCapture now options |}).

(** Lines 146-163: the form data, the endpoint and the abort timer. *)
Definition formRequest (r : Render) : Request :=
  {| endpoint := if seenIsAutoScan r then STREAM_ENDPOINT else PREDICT_ENDPOINT;
     fileName := if seenIsAutoScan r then "frame.jpg" else "scan.jpg";
     frame_idx :=
       if seenIsAutoScan r then Some (JS.toString (seenFrameCounter r))
       else None;
     abortAfter := if seenIsAutoScan r then 5000 else 15000 |}.

(** Lines 136-172: from the photo to the [await fetch]. *)
Definition afterCapture (inv : Invocation) (startTime : Z)
    (r : CaptureResult) (s : State) : State * Control :=
  match r with
  | CaptureRejected message => throw inv message s
  | Captured photo =>
      (s, Suspended
            (suspend inv
               (AwaitFetch startTime (cover photo) (formRequest (closure inv)))))
  end.

(** Lines 173-178: from the response to the [await response.json()]. *)
Definition afterFetch (inv : Invocation) (startTime : Z) (c : Cover)
    (r : FetchResult) (s : State) : State * Control :=
  match r with
  | FetchAborted => throw inv (abortMessage dev) s
  | FetchRejected message => throw inv message s
  | Response ok status =>
      if negb ok then throw inv ("Status: " ++ JS.toString status) s
      else (setIsConnected true s, Suspended (suspend inv (AwaitJson startTime c)))
  end.

(** Lines 224-234 and the [finally] block. *)
Definition finish (inv : Invocation) (startTime now : Z) (m : option Match)
    (s : State) : State * Control :=
  let auto := seenIsAutoScan (closure inv) in
  let s := if auto then setFrameCounter (fun prev => prev + 1) s else s in
  let processingTime := now - startTime in
  let s :=
    if auto && (processingTime <? 100)
    then addLog ("PROCESSING: " ++ JS.toString processingTime ++ "ms") s
    else s in
  (finally_block s, Returned (Success m)).

(** Lines 180-234: from the parsed body to the end. *)
Definition afterJson (inv : Invocation) (startTime : Z) (c : Cover)
    (r : JsonResult) (random : float) (now : Z) (s : State)
  : State * Control :=
  match r with
  | JsonRejected message => throw inv message s
  | Json data =>
      if skipped data then
        let s := setScanning false s in
        let s := setFrameCounter (fun prev => prev + 1) s in
        (finally_block s, Returned Skipped)
      else
        let auto := seenIsAutoScan (closure inv) in
        let s :=
          match metrics_fps data with
          | Some f =>
              if auto && JS.truthy f
              then addLog ("FPS: " ++ toFixed1 dev f) (setFps f s)
              else s
          | None => s
          end in
        match best_match data with
        | Some m =>
            let s := setResult (Some m) s in
            let s :=
              match bbox m with
              | Some b =>
                  setActiveBox
                    (Some {| box := scaledBox c b; boxLabel := label m |}) s
              | None => s
              end in
            let s := emit HapticNotification s in
            let s :=
              if isManualScan inv || (auto && (0.9 <? random)%float)
              then emit (Speak ("Target Confirmed. " ++ JS.template (label m))) s
              else s in
            if auto then
              match label m with
              | Some l =>
                  finish inv startTime now (Some m)
                    (addLog ("DETECTED: " ++ toUpperCase dev l) s)
              | None => throw inv (typeErrorMessage dev) s
              end
            else finish inv startTime now (Some m) s
        | None =>
            let s := setResult (Some noMatch) s in
            let s := setActiveBox None s in
            finish inv startTime now None s
        end
  end.

(** A suspended call goes on when the promise it awaits settles. *)
Definition resume (inv : Invocation) (r : Settlement) (now : Z) (s : State)
  : option (State * Control) :=
  match stage inv, r with
  | AwaitCapture startTime _, CaptureSettled r =>
      Some (afterCapture inv startTime r s)
  | AwaitFetch startTime c _, FetchSettled r =>
      Some (afterFetch inv startTime c r s)
  | AwaitJson startTime c, JsonSettled r random =>
      Some (afterJson inv startTime c r random now s)
  | _, _ => None
  end.

(** One call of [processFrame] run from its call to its return with
    nothing else in between: the three settlements in order. *)
Definition processFrameWhole (r : Render) (manual : bool) (cameraRef : bool)
    (start : Z) (rc : CaptureResult) (rf : FetchResult) (rj : JsonResult)
    (random : float) (now : Z) (s : State) : option (State * Outcome) :=
  match processFrame r manual cameraRef start s with
  | None => None
  | Some (s0, inv0) =>
      match afterCapture inv0 start rc s0 with
      | (s1, Returned o) => Some (s1, o)
      | (s1, Suspended inv1) =>
          match resume inv1 (FetchSettled rf) now s1 with
          | None => None
          | Some (s2, Returned o) => Some (s2, o)
          | Some (s2, Suspended inv2) =>
              match resume inv2 (JsonSettled rj random) now s2 with
              | Some (s3, Returned o) => Some (s3, o)
              | _ => None
              end
          end
      end
  end.

(** ** The auto-scan effect and its [loop] *)

(** [1000 / 15] *)
Definition targetInterval : float := (1000 / 15)%float.

(** Where a call of [loop] stands: not started or returned, waiting for
    its [setTimeout(loop, delay)], or suspended at
    [await processFrame(false)] with [delay] already computed. *)
Inductive LoopPhase :=
| Idle
| TimerPending (delay : float)
| Awaiting (delay : float) (inv : Invocation).

(** One run of the effect callback of [useEffect(..., [isAutoScan])]: its
    two variables, the render it was created by, and its loop. *)
Record EffectRun := {
  isActive : bool;
  lastFrameTime : Z;
  seen : Render;
  phase : LoopPhase
}.

Definition setPhase (p : LoopPhase) (e : EffectRun) : EffectRun :=
  {| isActive := isActive e; lastFrameTime := lastFrameTime e;
     seen := seen e; phase := p |}.

Definition setLastFrameTime (t : Z) (e : EffectRun) : EffectRun :=
  {| isActive := isActive e; lastFrameTime := t;
     seen := seen e; phase := phase e |}.

(** The cleanup function: [isActive = false]. *)
Definition cleanup (e : EffectRun) : EffectRun :=
  {| isActive := false; lastFrameTime := lastFrameTime e;
     seen := seen e; phase := phase e |}.

(** Lines 267-272: what follows [await processFrame(false)]. *)
Definition afterAwait (delay : float) (now : Z) (e : EffectRun) : EffectRun :=
  let e := setLastFrameTime now e in
  if isActive e && seenIsAutoScan (seen e)
  then setPhase (TimerPending delay) e
  else setPhase Idle e.

(** Lines 253-265: [loop] from its call to its [await]. *)
Definition loop (cameraRef : bool) (now : Z) (e : EffectRun) (s : State)
  : State * EffectRun :=
  if negb (isActive e) || negb (seenIsAutoScan (seen e))
  then (setScanning false s, setPhase Idle e)
  else
    let elapsed := now - lastFrameTime e in
    let delay := JS.Math_max 0 (targetInterval - JS.of_Z elapsed) in
    match processFrame (seen e) false cameraRef now s with
    | Some (s', inv) => (s', setPhase (Awaiting delay inv) e)
    | None => (s, afterAwait delay now e)
    end.

(** Lines 248-282: the effect callback, run after the commit [s].  [now]
    is the clock of the segment: it stands for the reading of line 276 and
    for the one that [loop] makes on line 259. *)
Definition effect (cameraRef : bool) (now : Z) (s : State)
  : State * EffectRun :=
  let e := {| isActive := true; lastFrameTime := 0;
              seen := render s; phase := Idle |} in
  if isAutoScan s then
    let e := setLastFrameTime now e in
    let (s, e) := loop cameraRef now e s in
    (addLog "AUTO-SCAN ENABLED" s, e)
  else
    (setActiveBox None (addLog "MANUAL MODE" s), e).

(** ** The screen as a transition system *)

(** The committed state, every run of the effect (newest first) and the
    manual scans that have not returned yet. *)
Record World := {
  ui : State;
  effectRuns : list EffectRun;
  manualScans : list Invocation
}.

Inductive Target :=
| OfLoop (i : nat)       (* the call awaited by the loop of effect run i *)
| OfPress (i : nat).     (* the i-th outstanding manual scan *)

Inductive Event :=
| Toggle (cameraRef : bool) (now : Z)         (* the AUTO switch *)
| Press (cameraRef : bool) (now : Z)          (* the main trigger *)
| TimerFires (i : nat) (cameraRef : bool) (now : Z)
| Settles (t : Target) (r : Settlement) (now : Z).

Fixpoint replace {A : Type} (i : nat) (x : A) (l : list A) : list A :=
  match l, i with
  | [], _ => []
  | _ :: l', O => x :: l'
  | y :: l', S i' => y :: replace i' x l'
  end.

Fixpoint remove {A : Type} (i : nat) (l : list A) : list A :=
  match l, i with
  | [], _ => []
  | _ :: l', O => l'
  | y :: l', S i' => y :: remove i' l'
  end.

Definition cleanupNewest (l : list EffectRun) : list EffectRun :=
  match l with
  | [] => []
  | e :: old => cleanup e :: old
  end.

(** The first commit and the effect that follows it. *)
Definition mounted : World :=
  let (s, e) := effect false 0 initialState in
  {| ui := s; effectRuns := [e]; manualScans := [] |}.

Definition step (w : World) (ev : Event) : option World :=
  match ev with
  | Toggle cameraRef now =>
      (* setIsAutoScan(p => !p); commit; cleanup of the last effect run;
         new effect run *)
      let (s, e) := effect cameraRef now (setIsAutoScan negb (ui w)) in
      Some {| ui := s;
              effectRuns := e :: cleanupNewest (effectRuns w);
              manualScans := manualScans w |}
  | Press cameraRef now =>
      (* the trigger is rendered in manual mode only *)
      if isAutoScan (ui w) then None
      else
        match processFrame (render (ui w)) true cameraRef now (ui w) with
        | Some (s, inv) =>
            Some {| ui := s; effectRuns := effectRuns w;
                    manualScans := manualScans w ++ [inv] |}
        | None => Some w
        end
  | TimerFires i cameraRef now =>
      match nth_error (effectRuns w) i with
      | Some e =>
          match phase e with
          | TimerPending _ =>
              let (s, e') := loop cameraRef now e (ui w) in
              Some {| ui := s; effectRuns := replace i e' (effectRuns w);
                      manualScans := manualScans w |}
          | _ => None
          end
      | None => None
      end
  | Settles (OfLoop i) r now =>
      match nth_error (effectRuns w) i with
      | Some e =>
          match phase e with
          | Awaiting delay inv =>
              match resume inv r now (ui w) with
              | Some (s, Suspended inv') =>
                  Some {| ui := s;
                          effectRuns :=
                            replace i (setPhase (Awaiting delay inv') e)
                                    (effectRuns w);
                          manualScans := manualScans w |}
              | Some (s, Returned _) =>
                  Some {| ui := s;
                          effectRuns :=
                            replace i (afterAwait delay now e) (effectRuns w);
                          manualScans := manualScans w |}
              | None => None
              end
          | _ => None
          end
      | None => None
      end
  | Settles (OfPress i) r now =>
      match nth_error (manualScans w) i with
      | Some inv =>
          match resume inv r now (ui w) with
          | Some (s, Suspended inv') =>
              Some {| ui := s; effectRuns := effectRuns w;
                      manualScans := replace i inv' (manualScans w) |}
          | Some (s, Returned _) =>
              Some {| ui := s; effectRuns := effectRuns w;
                      manualScans := remove i (manualScans w) |}
          | None => None
          end
      | None => None
      end
  end.

Fixpoint run (w : World) (evs : list Event) : option World :=
  match evs with
  | [] => Some w
  | ev :: evs' =>
      match step w ev with
      | Some w' => run w' evs'
      | None => None
      end
  end.

Inductive reachable : World -> Prop :=
| reachable_mounted : reachable mounted
| reachable_step (w w' : World) (ev : Event) :
    reachable w -> step w ev = Some w' -> reachable w'.

(** The submissions that are in flight: calls suspended at [await fetch]. *)
Definition inFlight (inv : Invocation) : bool :=
  match stage inv with
  | AwaitFetch _ _ _ => true
  | _ => false
  end.

Definition loopInFlight (e : EffectRun) : nat :=
  match phase e with
  | Awaiting _ inv => if inFlight inv then 1 else 0
  | _ => 0
  end.

End Screen.

(** ** Notions used in the statements *)

(** The call that a target designates. *)
Definition pending (w : World) (t : Target) : option Invocation :=
  match t with
  | OfLoop i =>
      match nth_error (effectRuns w) i with
      | Some e =>
          match phase e with
          | Awaiting _ inv => Some inv
          | _ => None
          end
      | None => None
      end
  | OfPress i => nth_error (manualScans w) i
  end.

(** The [frame_idx] field of the request that a target has outstanding. *)
Definition submittedIndex (w : World) (t : Target) : option string :=
  match pending w t with
  | Some inv =>
      match stage inv with
      | AwaitFetch _ _ request => frame_idx request
      | _ => None
      end
  | None => None
  end.

(** The number of blocking alerts shown so far. *)
Definition isAlert (o : Output) : bool :=
  match o with
  | AlertConnectionError => true
  | _ => false
  end.

Definition alerts (s : State) : nat := List.length (filter isAlert (outputs s)).

Definition logsBounded (s : State) : Prop := (List.length (logs s) <= 6)%nat.

(** The same state in another mode. *)
Definition inMode (auto : bool) (s : State) : State :=
  setIsAutoScan (fun _ => auto) s.

(** The state that a run from the mounted screen ends in. *)
Definition after (dev : Platform) (evs : list Event) : World :=
  match run dev mounted evs with
  | Some w => w
  | None => mounted
  end.

(** The transform in the words of the design document, for comparison with
    [cover] and [scaledBox]: the scale is the larger of the two ratios, an
    offset is half of what the scaled image exceeds the window by, and a
    corner is scaled and shifted. *)
Definition coverScale (viewW viewH imgW imgH : float) : float :=
  JS.Math_max (viewW / imgW) (viewH / imgH).

Definition coverOffset (view img scale : float) : float :=
  ((view - img * scale) / 2)%float.

Definition coverCorner (x y scale offsetX offsetY : float) : float * float :=
  ((x * scale + offsetX)%float, (y * scale + offsetY)%float).

Definition positive (x : float) : Prop := (0 <? x)%float = true.

(** A number that is +infinity or NaN. *)
Definition unbounded (x : float) : Prop := x = nan \/ x = infinity.

(** The design document's invariant on a state: a box is shown only if
    there is a result and that result has a bounding box. *)
Definition overlayHasResult (s : State) : Prop :=
  activeBox s <> None ->
  exists (m : Match) (b : list float), result s = Some m /\ bbox m = Some b.

(** [activeBox] was set from the bounding box of the match that is now in
    [result]. *)
Definition setWithResult (s : State) : Prop :=
  exists (m : Match) (b : list float) (c : Cover),
    result s = Some m /\ bbox m = Some b
    /\ activeBox s = Some {| box := scaledBox c b; boxLabel := label m |}.

(** [activeBox] is null and [result] is the "No Match" card. *)
Definition clearedWithNoMatch (s : State) : Prop :=
  activeBox s = None /\ result s = Some noMatch.

(** ** What holds of every reachable state *)

(** A call suspended at [fetch] has issued the request of its closure. *)
Definition wellFormed (inv : Invocation) : Prop :=
  match stage inv with
  | AwaitFetch _ _ request => request = formRequest (closure inv)
  | _ => True
  end.

(** The loop of an effect run calls [processFrame(false)] of the render
    that created the effect, and runs only if that render was in auto mode. *)
Definition loopCall (e : EffectRun) : Prop :=
  match phase e with
  | Idle => True
  | TimerPending _ => seenIsAutoScan (seen e) = true
  | Awaiting _ inv =>
      isManualScan inv = false /\ closure inv = seen e
      /\ seenIsAutoScan (seen e) = true /\ wellFormed inv
  end.

(** The trigger calls [processFrame(true)] of a render in manual mode. *)
Definition pressCall (inv : Invocation) : Prop :=
  isManualScan inv = true /\ seenIsAutoScan (closure inv) = false
  /\ wellFormed inv.

Definition inactive (e : EffectRun) : Prop := isActive e = false.

(** Only the newest effect run is active, and it was created by a render
    in the current mode. *)
Definition ordered (auto : bool) (l : list EffectRun) : Prop :=
  match l with
  | [] => False
  | e :: old =>
      isActive e = true /\ seenIsAutoScan (seen e) = auto /\ Forall inactive old
  end.

Record Invariant (w : World) : Prop := {
  effects_ordered : ordered (isAutoScan (ui w)) (effectRuns w);
  loops_typed : Forall loopCall (effectRuns w);
  presses_typed : Forall pressCall (manualScans w)
}.

(** ** A device, data and runs for the scenarios

    A 1080 x 1920 window.  The scenarios format no rate, so the value of
    [toFixed1] is immaterial; [toUpperCase] is the ASCII one. *)

Definition asciiUpper (c : ascii) : ascii :=
  let n := nat_of_ascii c in
  if ((97 <=? n) && (n <=? 122))%nat then ascii_of_nat (n - 32) else c.

Fixpoint upper (s : string) : string :=
  match s with
  | EmptyString => EmptyString
  | String c s' => String (asciiUpper c) (upper s')
  end.

Definition phone : Platform :=
  {| SCREEN_WIDTH := 1080; SCREEN_HEIGHT := 1920;
     toFixed1 := fun _ => "0.0";
     toUpperCase := upper;
     typeErrorMessage := "Cannot read property 'toUpperCase' of undefined";
     abortMessage := "Aborted" |}.

(** A 640 x 480 frame, and a frame that is 0 pixels wide. *)
Definition vga : Photo := {| width := 640; height := 480 |}.

Definition flat : Photo := {| width := 0; height := 480 |}.

(** A match with the box [100, 100, 200, 200], and where it lands on the
    phone for a 640 x 480 frame. *)
Definition deer : Match :=
  {| label := Some "deer"; confidence := Some 0.5%float;
     bbox := Some [100; 100; 200; 200]%float; details := [] |}.

Definition deerBox : ActiveBox :=
  {| box := [-340; 400; 60; 800]%float; boxLabel := Some "deer" |}.

(** Bodies of 2xx responses. *)
Definition found (m : Match) : Data :=
  {| skipped := false; metrics_fps := None; best_match := Some m |}.

Definition nothingFound : Data :=
  {| skipped := false; metrics_fps := None; best_match := None |}.

Definition skippedFrame : Data :=
  {| skipped := true; metrics_fps := None; best_match := None |}.

(** What a manual scan is suspended on once the photo is there. *)
Definition manualRequest : Request :=
  {| endpoint := PREDICT_ENDPOINT; fileName := "scan.jpg";
     frame_idx := None; abortAfter := 15000 |}.

(** A manual scan from the press to the parsed body, with the camera
    mounted and a 2xx response. *)
Definition manualScan (dev : Platform) (photo : Photo) (data : Data)
    (s : State) : option (State * Outcome) :=
  processFrameWhole dev (render s) true true 0 (Captured photo)
    (Response true 200) (Json data) 0%float 0 s.

(** One streaming call, from the loop's call to the parsed body. *)
Definition streamingCall (dev : Platform) (data : Data) (s : State)
  : option (State * Outcome) :=
  processFrameWhole dev (render s) false true 0 (Captured vga)
    (Response true 200) (Json data) 0%float 5 s.

(** A streaming session whose render saw the counter at 7. *)
Definition atFrame7 : State :=
  setFrameCounter (fun _ => 7) (setIsAutoScan (fun _ => true) initialState).

(** The mode is toggled three times: the log is full. *)
Definition threeToggles : list Event :=
  [Toggle true 0; Toggle true 10; Toggle true 20].

(** Auto mode is switched on and the first frame has been captured and
    submitted. *)
Definition firstSubmission : list Event :=
  [Toggle true 0; Settles (OfLoop 0) (CaptureSettled (Captured vga)) 10].

(** The first streaming cycle then completes with no match, its timer fires,
    and the second frame has been captured and submitted. *)
Definition secondSubmission : list Event :=
  firstSubmission
  ++ [Settles (OfLoop 0) (FetchSettled (Response true 200)) 200;
      Settles (OfLoop 0) (JsonSettled (Json nothingFound) 0) 201;
      TimerFires 0 true 270;
      Settles (OfLoop 0) (CaptureSettled (Captured vga)) 280].

(** Auto mode is switched off while the first streaming request is out;
    the response arrives afterwards, and then its body. *)
Definition switchedBack : list Event :=
  firstSubmission
  ++ [Toggle true 20;
      Settles (OfLoop 1) (FetchSettled (Response true 200)) 200].

Definition lateCompletion : list Event :=
  switchedBack ++ [Settles (OfLoop 1) (JsonSettled (Json (found deer)) 0) 201].

(** The trigger is pressed and the frame has been captured and submitted;
    the response arrives; the body says a deer was found; the trigger is
    pressed again. *)
Definition manualSubmission : list Event :=
  [Press true 0; Settles (OfPress 0) (CaptureSettled (Captured vga)) 10].

Definition manualFetched : list Event :=
  manualSubmission
  ++ [Settles (OfPress 0) (FetchSettled (Response true 200)) 200].

Definition manualFound : list Event :=
  manualFetched
  ++ [Settles (OfPress 0) (JsonSettled (Json (found deer)) 0) 201].

Definition secondPress : list Event := manualFound ++ [Press true 5000].

(** The trigger is pressed; the switch is set to AUTO while the camera is
    still taking the photo; the capture then fails. *)
Definition pressThenSwitch : list Event :=
  [Press true 0; Toggle true 5;
   Settles (OfPress 0) (CaptureSettled (CaptureRejected "Camera is not running"))
     10].

(** The first streaming request is out when the switch is set back to
    manual; the request then fails. *)
Definition failsAfterSwitchBack : list Event :=
  firstSubmission
  ++ [Toggle true 20;
      Settles (OfLoop 1) (FetchSettled (FetchRejected "Network request failed"))
        300].

(** Auto mode is switched on and off again while the camera is still
    taking the first frame. *)
Definition switchedBackEarly : list Event := [Toggle true 0; Toggle true 20].

(** ** The rest of the camera screen *)

(** [Math.min] on two numbers: NaN is contagious and -0 is smaller than +0. *)
Definition Math_min (a b : float) : float :=
  if (PrimFloat.is_nan a || PrimFloat.is_nan b)%bool then nan
  else if (a <? b)%float then a
  else if (b <? a)%float then b
  else if PrimFloat.get_sign a then a else b.

(** Lines 327-333: the updater that [handleZoom(increment)] hands to
    [setZoom]; the haptic tick it also makes has no part in the value. *)
Definition handleZoom (increment prev : float) : float :=
  JS.Math_max 0 (Math_min 1 (prev + increment)).

(** Lines 32-46: what [BoundingBox] lays out for its [bbox] prop; nothing
    when the prop is null.  A coordinate that the array does not hold is
    [undefined]: the style gets it as it is ([None]) for [left] and [top],
    and the subtraction turns it into NaN for [width] and [height]. *)
Record Layout := {
  boxLeft : option float;
  boxTop : option float;
  boxWidth : float;
  boxHeight : float
}.

Definition BoundingBox (bbox : option (list float)) : option Layout :=
  match bbox with
  | None => None
  | Some b =>
      let x1 := nth_error b 0 in
      let y1 := nth_error b 1 in
      let x2 := nth_error b 2 in
      let y2 := nth_error b 3 in
      let number (v : option float) := match v with Some x => x | None => nan end in
      Some {| boxLeft := x1; boxTop := y1;
              boxWidth := PrimFloat.abs (number x2 - number x1);
              boxHeight := PrimFloat.abs (number y2 - number y1) |}
  end.

(** Lines 317-325: the lines of [DataStream], each with its opacity
    [1 - (i * 0.15)]. *)
Fixpoint dataStreamFrom (i : Z) (entries : list string)
  : list (string * float) :=
  match entries with
  | [] => []
  | entry :: rest =>
      ("> " ++ entry, (1 - JS.of_Z i * 0.15)%float)
        :: dataStreamFrom (i + 1) rest
  end.

Definition DataStream (s : State) : list (string * float) :=
  dataStreamFrom 0 (logs s).

(** A number: not NaN. *)
Definition isNumber (x : float) : Prop := PrimFloat.is_nan x = false.

(** Lines 284-286: the cleanup that runs when the screen is left (the
    back button, line 361): the newest effect run is deactivated. *)
Definition unmount (w : World) : World :=
  {| ui := ui w;
     effectRuns := cleanupNewest (effectRuns w);
     manualScans := manualScans w |}.

(** Lines 129-134: the options of [takePictureAsync]. *)
Definition captureOptions (r : Render) : CaptureOptions :=
  {| quality := if seenIsAutoScan r then 0.5%float else 0.8%float;
     captureScale := if seenIsAutoScan r then 0.5%float else 1%float |}.

(** Events that need no user: timers and settlements. *)
Definition background (ev : Event) : Prop :=
  match ev with
  | TimerFires _ _ _ | Settles _ _ _ => True
  | _ => False
  end.

(** Events other than the AUTO switch. *)
Definition notToggle (ev : Event) : Prop :=
  match ev with
  | Toggle _ _ => False
  | _ => True
  end.

(** Loops that have a timer or a call pending. *)
Definition busy (e : EffectRun) : nat :=
  match phase e with
  | Idle => 0
  | _ => 1
  end.

Definition busyLoops (w : World) : nat := list_sum (map busy (effectRuns w)).

(** The "target confirmed" feedback: the success haptic and the speech. *)
Definition isFeedback (o : Output) : bool :=
  match o with
  | HapticNotification | Speak _ => true
  | _ => false
  end.

Definition feedback (s : State) : list Output := filter isFeedback (outputs s).

(** A body without a match to show: skipped, or no [best_match]. *)
Definition withoutMatch (r : Settlement) : Prop :=
  match r with
  | JsonSettled (Json data) _ => skipped data = true \/ best_match data = None
  | _ => True
  end.

(** A call suspended at the capture asked for the options of its closure;
    a delay handed to [setTimeout] is not negative. *)
Definition capturedAsClosure (inv : Invocation) : Prop :=
  match stage inv with
  | AwaitCapture _ options => options = captureOptions (closure inv)
  | _ => True
  end.

Definition notNegative (x : float) : Prop := (x <? 0)%float = false.

Definition loopShape (e : EffectRun) : Prop :=
  match phase e with
  | Idle => True
  | TimerPending delay => notNegative delay
  | Awaiting delay inv => notNegative delay /\ capturedAsClosure inv
  end.

Definition shaped (w : World) : Prop :=
  Forall loopShape (effectRuns w) /\ Forall capturedAsClosure (manualScans w).

(** At most one manual scan is out, and [scanning] holds while it is. *)
Definition serialised (w : World) : Prop :=
  effectRuns w = effectRuns mounted
  /\ isAutoScan (ui w) = false
  /\ (manualScans w = []
      \/ exists inv, manualScans w = [inv] /\ scanning (ui w) = true).

(** The first streaming cycle finds a deer. *)
Definition streamingFound : list Event :=
  firstSubmission
  ++ [Settles (OfLoop 0) (FetchSettled (Response true 200)) 200;
      Settles (OfLoop 0) (JsonSettled (Json (found deer)) 0) 201].

(** ** Generalities on runs *)

Lemma run_reachable (dev : Platform) (evs : list Event) :
  forall w w', reachable dev w -> run dev w evs = Some w' -> reachable dev w'.
Proof.
  induction evs as [|ev evs IH]; intros w w' Hw Hrun; simpl in Hrun.
  - now inversion Hrun; subst.
  - destruct (step dev w ev) as [w1|] eqn:Hstep; [|discriminate].
    eapply IH; [|exact Hrun]. eapply reachable_step; eauto.
Qed.

Lemma run_from_mounted (dev : Platform) (evs : list Event) (w : World) :
  run dev mounted evs = Some w -> reachable dev w.
Proof. apply run_reachable. constructor. Qed.

Lemma after_reachable (dev : Platform) (evs : list Event) :
  reachable dev (after dev evs).
Proof.
  unfold after. destruct (run dev mounted evs) as [w|] eqn:Hrun.
  - eapply run_from_mounted; eauto.
  - constructor.
Qed.

(** ** The diagnostic log *)

Lemma pushLog_length (text : string) (prev : list string) :
  (List.length (pushLog text prev) <= 6)%nat.
Proof. unfold pushLog. apply firstn_le_length. Qed.

Lemma logsBounded_addLog (text : string) (s : State) : logsBounded (addLog text s).
Proof. unfold logsBounded, addLog. cbn [logs setLogs]. apply pushLog_length. Qed.

(** A setter that leaves [logs] alone keeps the bound. *)
Ltac logs_step :=
  cbv zeta; cbn [fst];
  repeat match goal with
    | |- logsBounded (addLog _ _) => apply logsBounded_addLog
    | |- logsBounded (if ?b then _ else _) => destruct b
    | |- logsBounded (match ?x with _ => _ end) => destruct x
    | |- logsBounded (fst (if ?b then _ else _)) => destruct b
    | |- logsBounded (fst (match ?x with _ => _ end)) => destruct x
    | |- logsBounded (fst (_, _)) => cbn [fst]
    | |- logsBounded (setScanning _ ?s) => change (logsBounded s)
    | |- logsBounded (setResult _ ?s) => change (logsBounded s)
    | |- logsBounded (setIsAutoScan _ ?s) => change (logsBounded s)
    | |- logsBounded (setIsConnected _ ?s) => change (logsBounded s)
    | |- logsBounded (setFrameCounter _ ?s) => change (logsBounded s)
    | |- logsBounded (setFps _ ?s) => change (logsBounded s)
    | |- logsBounded (setActiveBox _ ?s) => change (logsBounded s)
    | |- logsBounded (emit _ ?s) => change (logsBounded s)
    end; try assumption.

Lemma logsBounded_throw (inv : Invocation) (message : string) (s : State) :
  logsBounded (fst (throw inv message s)).
Proof. unfold throw, finally_block, catch_block. logs_step. Qed.

Lemma logsBounded_finish (inv : Invocation) (startTime now : Z)
    (m : option Match) (s : State) :
  logsBounded s -> logsBounded (fst (finish inv startTime now m s)).
Proof. intros H. unfold finish, finally_block. logs_step. Qed.

Lemma logsBounded_processFrame (r : Render) (manual cameraRef : bool) (now : Z)
    (s s' : State) (inv : Invocation) :
  logsBounded s -> processFrame r manual cameraRef now s = Some (s', inv) ->
  logsBounded s'.
Proof.
  intros H Hp. unfold processFrame in Hp.
  destruct (negb cameraRef); [discriminate|].
  destruct (seenScanning r && negb (seenIsAutoScan r)); [discriminate|].
  inversion Hp; subst; clear Hp. logs_step.
Qed.

Lemma logsBounded_resume (dev : Platform) (inv : Invocation) (r : Settlement)
    (now : Z) (s s' : State) (c : Control) :
  logsBounded s -> resume dev inv r now s = Some (s', c) -> logsBounded s'.
Proof.
  intros H Hr. unfold resume in Hr.
  destruct (stage inv) as [st o|st cv rq|st cv]; destruct r as [rc|rf|rj rnd];
    try discriminate; inversion Hr as [Heq]; clear Hr;
    apply (f_equal fst) in Heq; cbn [fst] in Heq; subst s'.
  - unfold afterCapture. destruct rc; [apply logsBounded_throw|]. logs_step.
  - unfold afterFetch. destruct rf as [|message|ok status];
      try apply logsBounded_throw.
    destruct (negb ok); [apply logsBounded_throw|]. logs_step.
  - unfold afterJson. destruct rj as [message|data]; [apply logsBounded_throw|].
    destruct (skipped data); [unfold finally_block; logs_step|].
    destruct (best_match data) as [m|].
    + destruct (seenIsAutoScan (closure inv)).
      * destruct (label m); [apply logsBounded_finish|apply logsBounded_throw].
        logs_step.
      * apply logsBounded_finish. logs_step.
    + apply logsBounded_finish. logs_step.
Qed.

Lemma logsBounded_loop (cameraRef : bool) (now : Z) (e : EffectRun) (s : State) :
  logsBounded s -> logsBounded (fst (loop cameraRef now e s)).
Proof.
  intros H. unfold loop.
  destruct (negb (isActive e) || negb (seenIsAutoScan (seen e))); [logs_step|].
  destruct (processFrame (seen e) false cameraRef now s) as [[s' inv]|] eqn:Hp;
    cbn [fst]; [|assumption].
  eapply logsBounded_processFrame; eauto.
Qed.

Lemma logsBounded_effect (cameraRef : bool) (now : Z) (s : State) :
  logsBounded (fst (effect cameraRef now s)).
Proof.
  unfold effect. destruct (isAutoScan s).
  - destruct (loop _ _ _ _). cbn [fst]. apply logsBounded_addLog.
  - cbn [fst]. logs_step.
Qed.

Lemma logsBounded_step (dev : Platform) (w w' : World) (ev : Event) :
  logsBounded (ui w) -> step dev w ev = Some w' -> logsBounded (ui w').
Proof.
  intros H Hs. destruct ev as [cam now|cam now|i cam now|[i|i] r now];
    cbn [step] in Hs.
  - pose proof (logsBounded_effect cam now (setIsAutoScan negb (ui w))) as He.
    destruct (effect cam now (setIsAutoScan negb (ui w))) as [s e].
    inversion Hs; subst; exact He.
  - destruct (isAutoScan (ui w)); [discriminate|].
    destruct (processFrame _ _ _ _ _) as [[s inv]|] eqn:Hp.
    + inversion Hs; subst; cbn [ui]. eapply logsBounded_processFrame; eauto.
    + inversion Hs; subst; assumption.
  - destruct (nth_error (effectRuns w) i) as [e|]; [|discriminate].
    destruct (phase e); try discriminate.
    pose proof (logsBounded_loop cam now e (ui w) H) as Hl.
    destruct (loop cam now e (ui w)) as [s e'].
    inversion Hs; subst; exact Hl.
  - destruct (nth_error (effectRuns w) i) as [e|]; [|discriminate].
    destruct (phase e) as [|d|d inv]; try discriminate.
    destruct (resume dev inv r now (ui w)) as [[s c]|] eqn:Hr; [|discriminate].
    pose proof (logsBounded_resume dev inv r now (ui w) s c H Hr).
    destruct c; inversion Hs; subst; assumption.
  - destruct (nth_error (manualScans w) i) as [inv|]; [|discriminate].
    destruct (resume dev inv r now (ui w)) as [[s c]|] eqn:Hr; [|discriminate].
    pose proof (logsBounded_resume dev inv r now (ui w) s c H Hr).
    destruct c; inversion Hs; subst; assumption.
Qed.

Lemma logsBounded_reachable (dev : Platform) (w : World) :
  reachable dev w -> logsBounded (ui w).
Proof.
  induction 1 as [|w w' ev Hw IH Hs].
  - unfold logsBounded. cbn. lia.
  - eapply logsBounded_step; eauto.
Qed.

(** C6. The diagnostic log of every reachable state has at most 6 entries;
    [addLog] puts the new entry first and keeps the 5 most recent of the
    others, so that on a full log the oldest entry is dropped, and after 7
    appends the first appended entry is the one that has gone. *)
Theorem log_most_recent_first_capacity_6 :
  forall (dev : Platform) (w : World),
    reachable dev w ->
    (List.length (logs (ui w)) <= 6)%nat
    /\ (forall text,
          logs (addLog text (ui w)) = text :: firstn 5 (logs (ui w))
          /\ (List.length (logs (addLog text (ui w))) <= 6)%nat)
    /\ (forall text a b c d e oldest,
          pushLog text [a; b; c; d; e; oldest] = [text; a; b; c; d; e])
    /\ (forall prev e1 e2 e3 e4 e5 e6 e7,
          addLogs [e1; e2; e3; e4; e5; e6] prev = [e6; e5; e4; e3; e2; e1]
          /\ addLogs [e1; e2; e3; e4; e5; e6; e7] prev
             = [e7; e6; e5; e4; e3; e2]).
Proof.
  intros dev w Hw. split; [exact (logsBounded_reachable dev w Hw)|].
  split; [|split].
  - intros text. split; [reflexivity|]. apply logsBounded_addLog.
  - reflexivity.
  - intros. split; reflexivity.
Qed.

Lemma log_most_recent_first_capacity_6_witness :
  reachable phone (after phone threeToggles)
  /\ List.length (logs (ui (after phone threeToggles))) = 6%nat
  /\ (forall text,
        logs (addLog text (ui (after phone threeToggles)))
        = text :: firstn 5 (logs (ui (after phone threeToggles)))
        /\ (List.length (logs (addLog text (ui (after phone threeToggles))))
            <= 6)%nat).
Proof.
  pose proof (after_reachable phone threeToggles) as Hreach.
  split; [exact Hreach|]. split; [reflexivity|].
  exact (proj1 (proj2
    (log_most_recent_first_capacity_6 phone (after phone threeToggles) Hreach))).
Defined.

(** ** The cover transform *)

(** C1. For a frame and a window of positive dimensions, [processFrame]
    computes scale = max(viewW/imgW, viewH/imgH), offsetX = (viewW -
    imgW*scale)/2, offsetY = (viewH - imgH*scale)/2, sends each corner
    (x, y) of a box to (x*scale + offsetX, y*scale + offsetY), and that
    box is the one a manual scan stores in [activeBox]; for a 640 x 480
    frame in a 1080 x 1920 window the scale is 4, the offsets are -740 and
    0, and the box [100,100,200,200] becomes [-340,400,60,800]. *)
Theorem cover_transform_aspect_fill :
  forall (dev : Platform) (photo : Photo) (x1 y1 x2 y2 : float),
    positive (width photo) -> positive (height photo) ->
    positive (SCREEN_WIDTH dev) -> positive (SCREEN_HEIGHT dev) ->
    let c := cover dev photo in
    scale c = coverScale (SCREEN_WIDTH dev) (SCREEN_HEIGHT dev)
                         (width photo) (height photo)
    /\ offsetX c = coverOffset (SCREEN_WIDTH dev) (width photo) (scale c)
    /\ offsetY c = coverOffset (SCREEN_HEIGHT dev) (height photo) (scale c)
    /\ scaledBox c [x1; y1; x2; y2]
       = [fst (coverCorner x1 y1 (scale c) (offsetX c) (offsetY c));
          snd (coverCorner x1 y1 (scale c) (offsetX c) (offsetY c));
          fst (coverCorner x2 y2 (scale c) (offsetX c) (offsetY c));
          snd (coverCorner x2 y2 (scale c) (offsetX c) (offsetY c))]
    /\ (forall (m : Match) (s : State),
          isAutoScan s = false -> scanning s = false ->
          bbox m = Some [x1; y1; x2; y2] ->
          exists s',
            manualScan dev photo (found m) s = Some (s', Success (Some m))
            /\ activeBox s'
               = Some {| box := scaledBox c [x1; y1; x2; y2];
                         boxLabel := label m |})
    /\ cover phone vga = {| scale := 4; offsetX := -740; offsetY := 0 |}
    /\ scaledBox (cover phone vga) [100; 100; 200; 200]%float
       = [-340; 400; 60; 800]%float.
Proof.
  intros dev photo x1 y1 x2 y2 _ _ _ _ c.
  repeat split.
  intros m s Hauto Hscan Hbox.
  unfold manualScan, processFrameWhole, processFrame, render; cbn.
  rewrite Hauto, Hscan; cbn. rewrite Hbox; cbn.
  eexists; split; reflexivity.
Qed.

Lemma cover_transform_aspect_fill_witness :
  positive (width vga) /\ positive (height vga)
  /\ positive (SCREEN_WIDTH phone) /\ positive (SCREEN_HEIGHT phone)
  /\ scale (cover phone vga) = 4%float
  /\ offsetX (cover phone vga) = (-740)%float
  /\ offsetY (cover phone vga) = 0%float
  /\ exists s',
       manualScan phone vga (found deer) initialState
         = Some (s', Success (Some deer))
       /\ activeBox s'
          = Some {| box := [-340; 400; 60; 800]%float; boxLabel := Some "deer" |}.
Proof.
  assert (Hw : positive (width vga)) by reflexivity.
  assert (Hh : positive (height vga)) by reflexivity.
  assert (HW : positive (SCREEN_WIDTH phone)) by reflexivity.
  assert (HH : positive (SCREEN_HEIGHT phone)) by reflexivity.
  destruct (cover_transform_aspect_fill phone vga 100 100 200 200 Hw Hh HW HH)
    as (_ & _ & _ & _ & Hscan & _ & _).
  repeat (split; [reflexivity|]).
  exact (Hscan deer initialState eq_refl eq_refl eq_refl).
Defined.

(** C9, as stated, fails: a manual scan whose photo is 0 pixels wide is
    not stopped.  The division is carried out, the scale is infinite, and
    the scan goes on to its [fetch]; nothing is logged and the screen stays
    online. *)
Lemma zero_width_frame_is_submitted :
  run phone mounted
      [Press true 0; Settles (OfPress 0) (CaptureSettled (Captured flat)) 5]
  = Some {| ui := emit HapticImpact (setScanning true (ui mounted));
            effectRuns := effectRuns mounted;
            manualScans :=
              [{| isManualScan := true;
                  closure := render (ui mounted);
                  stage :=
                    AwaitFetch 0
                      {| scale := infinity; offsetX := nan;
                         offsetY := neg_infinity |}
                      manualRequest |}] |}
  /\ ~ (exists s message,
          afterCapture phone
            {| isManualScan := true; closure := render (ui mounted);
               stage := AwaitCapture 0
                          {| quality := 0.8; captureScale := 1 |} |}
            0 (Captured flat) (emit HapticImpact (setScanning true (ui mounted)))
          = (s, Returned (Failure message))).
Proof.
  split; [reflexivity|].
  intros (s & message & H). vm_compute in H. discriminate.
Qed.

(** Binary64 facts used for frames without extent. *)
Lemma div_positive_zero (x : float) : positive x -> (x / 0)%float = infinity.
Proof.
  unfold positive. intros H. apply Prim2SF_inj. rewrite FloatAxioms.div_spec.
  rewrite FloatAxioms.ltb_spec in H.
  change (Prim2SF 0) with (S754_zero false) in *.
  change (Prim2SF infinity) with (S754_infinity false).
  destruct (Prim2SF x) as [sg|sg| |sg m e]; cbn in H; try discriminate;
    destruct sg; try discriminate; reflexivity.
Qed.

Lemma ltb_infinity (y : float) : (infinity <? y)%float = false.
Proof.
  rewrite FloatAxioms.ltb_spec.
  change (Prim2SF infinity) with (S754_infinity false).
  destruct (Prim2SF y) as [sg|sg| |sg m e]; try destruct sg; reflexivity.
Qed.

Lemma not_below_infinity (a : float) :
  PrimFloat.is_nan a = false -> (a <? infinity)%float = false -> a = infinity.
Proof.
  unfold PrimFloat.is_nan. intros Hn Hl.
  rewrite FloatAxioms.eqb_spec in Hn. rewrite FloatAxioms.ltb_spec in Hl.
  apply Prim2SF_inj. change (Prim2SF infinity) with (S754_infinity false) in *.
  destruct (Prim2SF a) as [sg|sg| |sg m e]; try destruct sg; cbn in *;
    try discriminate; reflexivity.
Qed.

Lemma sub_nan (x : float) : (x - nan)%float = nan.
Proof.
  apply Prim2SF_inj. rewrite FloatAxioms.sub_spec.
  change (Prim2SF nan) with S754_nan.
  destruct (Prim2SF x) as [sg|sg| |sg m e]; reflexivity.
Qed.

Lemma add_nan (x : float) : (x + nan)%float = nan.
Proof.
  apply Prim2SF_inj. rewrite FloatAxioms.add_spec.
  change (Prim2SF nan) with S754_nan.
  destruct (Prim2SF x) as [sg|sg| |sg m e]; reflexivity.
Qed.

Lemma Math_max_infinity_l (y : float) : unbounded (JS.Math_max infinity y).
Proof.
  unfold unbounded, JS.Math_max. change (PrimFloat.is_nan infinity) with false.
  cbn [orb]. destruct (PrimFloat.is_nan y); [left; reflexivity|right].
  rewrite ltb_infinity. destruct (y <? infinity)%float; reflexivity.
Qed.

Lemma Math_max_infinity_r (x : float) : unbounded (JS.Math_max x infinity).
Proof.
  unfold unbounded, JS.Math_max. change (PrimFloat.is_nan infinity) with false.
  rewrite orb_false_r.
  destruct (PrimFloat.is_nan x) eqn:Hn; [left; reflexivity|right].
  destruct (x <? infinity)%float eqn:Hl; [reflexivity|].
  rewrite ltb_infinity. rewrite (not_below_infinity x Hn Hl). reflexivity.
Qed.

Lemma half_excess_unbounded (view sc : float) :
  unbounded sc -> (((view - 0 * sc) / 2)%float) = nan.
Proof. intros [H|H]; rewrite H; cbn; rewrite sub_nan; reflexivity. Qed.

(** C9, amended.  A frame whose width or height is zero is handled like any
    other: the capture does not end the scan with a failure, the division
    is carried out in binary64 arithmetic, and the scan proceeds to
    [fetch].  In a window of positive size the scale is then +infinity or
    NaN, the offset along the dimension without extent is NaN, and so is
    every mapped coordinate along it.  For a 0 x 480 frame in a 1080 x 1920
    window the scale is +infinity, the offsets are NaN and -infinity, and
    all four coordinates of a mapped box are NaN. *)
Theorem zero_dimension_frame_not_rejected :
  forall (dev : Platform) (inv : Invocation) (startTime : Z) (photo : Photo)
         (s : State),
    positive (SCREEN_WIDTH dev) -> positive (SCREEN_HEIGHT dev) ->
    width photo = 0%float \/ height photo = 0%float ->
    afterCapture dev inv startTime (Captured photo) s
    = (s, Suspended
            (suspend inv
               (AwaitFetch startTime (cover dev photo)
                  (formRequest (closure inv)))))
    /\ unbounded (scale (cover dev photo))
    /\ (width photo = 0%float ->
        offsetX (cover dev photo) = nan
        /\ forall b,
             nth 0 (scaledBox (cover dev photo) b) 0%float = nan
             /\ nth 2 (scaledBox (cover dev photo) b) 0%float = nan)
    /\ (height photo = 0%float ->
        offsetY (cover dev photo) = nan
        /\ forall b,
             nth 1 (scaledBox (cover dev photo) b) 0%float = nan
             /\ nth 3 (scaledBox (cover dev photo) b) 0%float = nan)
    /\ cover phone flat
       = {| scale := infinity; offsetX := nan; offsetY := neg_infinity |}
    /\ scaledBox (cover phone flat) [100; 100; 200; 200]%float
       = [nan; nan; nan; nan].
Proof.
  intros dev inv startTime photo s HW HH Hzero.
  assert (Hscale : unbounded (scale (cover dev photo))).
  { unfold cover; cbn [scale]. destruct Hzero as [Hz|Hz]; rewrite Hz.
    - rewrite (div_positive_zero _ HW). apply Math_max_infinity_l.
    - rewrite (div_positive_zero _ HH). apply Math_max_infinity_r. }
  split; [reflexivity|]. split; [exact Hscale|].
  split; [|split; [|split; reflexivity]].
  - intros Hz.
    assert (Hoff : offsetX (cover dev photo) = nan).
    { unfold cover in *; cbn [scale offsetX] in *. rewrite Hz in *.
      apply half_excess_unbounded. exact Hscale. }
    split; [exact Hoff|]. intros b. unfold scaledBox. cbn [nth].
    rewrite Hoff. split; apply add_nan.
  - intros Hz.
    assert (Hoff : offsetY (cover dev photo) = nan).
    { unfold cover in *; cbn [scale offsetY] in *. rewrite Hz in *.
      apply half_excess_unbounded. exact Hscale. }
    split; [exact Hoff|]. intros b. unfold scaledBox. cbn [nth].
    rewrite Hoff. split; apply add_nan.
Qed.

Lemma zero_dimension_frame_not_rejected_witness :
  positive (SCREEN_WIDTH phone) /\ positive (SCREEN_HEIGHT phone)
  /\ (width flat = 0%float \/ height flat = 0%float)
  /\ unbounded (scale (cover phone flat))
  /\ offsetX (cover phone flat) = nan.
Proof.
  assert (HW : positive (SCREEN_WIDTH phone)) by reflexivity.
  assert (HH : positive (SCREEN_HEIGHT phone)) by reflexivity.
  assert (Hz : width flat = 0%float \/ height flat = 0%float)
    by (left; reflexivity).
  destruct (zero_dimension_frame_not_rejected phone
              {| isManualScan := true; closure := render initialState;
                 stage := AwaitCapture 0 {| quality := 0.8; captureScale := 1 |} |}
              0 flat initialState HW HH Hz)
    as (_ & Hscale & Hx & _).
  split; [exact HW|]. split; [exact HH|]. split; [exact Hz|].
  split; [exact Hscale|]. exact (proj1 (Hx eq_refl)).
Defined.

(** ** Lists of effect runs and of calls *)

Lemma Forall_replace {A : Type} (P : A -> Prop) (x : A) :
  forall (l : list A) (i : nat), Forall P l -> P x -> Forall P (replace i x l).
Proof.
  induction l as [|y l IH]; intros i Hl Hx; destruct i; simpl; auto;
    inversion Hl; subst; constructor; auto.
Qed.

Lemma Forall_remove {A : Type} (P : A -> Prop) :
  forall (l : list A) (i : nat), Forall P l -> Forall P (remove i l).
Proof.
  induction l as [|y l IH]; intros i Hl; destruct i; simpl; auto;
    inversion Hl; subst; auto.
Qed.

Lemma Forall_nth_error {A : Type} (P : A -> Prop) (l : list A) (i : nat) (x : A) :
  Forall P l -> nth_error l i = Some x -> P x.
Proof.
  intros Hl Hn. rewrite Forall_forall in Hl. apply Hl.
  eapply nth_error_In; eauto.
Qed.

Lemma nth_error_replace {A : Type} (x : A) :
  forall (l : list A) (i : nat) (y : A),
    nth_error l i = Some y -> nth_error (replace i x l) i = Some x.
Proof.
  induction l as [|z l IH]; intros i y Hn; destruct i; simpl in *;
    try discriminate; eauto.
Qed.

Lemma ordered_replace (auto : bool) (e e' : EffectRun) :
  forall (l : list EffectRun) (i : nat),
    ordered auto l -> nth_error l i = Some e ->
    isActive e' = isActive e -> seen e' = seen e ->
    ordered auto (replace i e' l).
Proof.
  intros [|e0 old] i Ho Hn Ha Hs; [destruct Ho|].
  destruct Ho as (H1 & H2 & H3). destruct i; simpl in *.
  - inversion Hn; subst. rewrite Ha, Hs. auto.
  - repeat split; auto. apply Forall_replace; auto.
    unfold inactive. rewrite Ha. eapply (Forall_nth_error inactive); eauto.
Qed.

(** ** What the segments of [processFrame] and [loop] keep *)

Ltac branches :=
  repeat match goal with
    | |- context [if ?b then _ else _] => destruct b
    | |- context [match ?x with _ => _ end] => destruct x
    end.

Lemma processFrame_call (r : Render) (manual cameraRef : bool) (now : Z)
    (s s' : State) (inv : Invocation) :
  processFrame r manual cameraRef now s = Some (s', inv) ->
  isManualScan inv = manual /\ closure inv = r
  /\ (exists options, stage inv = AwaitCapture now options)
  /\ isAutoScan s' = isAutoScan s.
Proof.
  unfold processFrame. intros H.
  destruct (negb cameraRef); [discriminate|].
  destruct (seenScanning r && negb (seenIsAutoScan r)); [discriminate|].
  inversion H; subst; clear H. cbn.
  repeat split; eauto. destruct manual; reflexivity.
Qed.

Lemma resume_mode (dev : Platform) (inv : Invocation) (r : Settlement)
    (now : Z) (s s' : State) (c : Control) :
  resume dev inv r now s = Some (s', c) -> isAutoScan s' = isAutoScan s.
Proof.
  intros Hr. unfold resume in Hr.
  destruct (stage inv) as [st o|st cv rq|st cv]; destruct r as [rc|rf|rj rnd];
    try discriminate; inversion Hr as [Heq]; clear Hr;
    apply (f_equal fst) in Heq; cbn [fst] in Heq; subst s'.
  - unfold afterCapture, throw, finally_block, catch_block. branches; reflexivity.
  - unfold afterFetch, throw, finally_block, catch_block. branches; reflexivity.
  - unfold afterJson, finish, throw, finally_block, catch_block.
    branches; reflexivity.
Qed.

Lemma resume_suspended (dev : Platform) (inv inv' : Invocation)
    (r : Settlement) (now : Z) (s s' : State) :
  resume dev inv r now s = Some (s', Suspended inv') ->
  isManualScan inv' = isManualScan inv /\ closure inv' = closure inv
  /\ wellFormed inv'.
Proof.
  intros Hr. unfold resume in Hr.
  destruct (stage inv) as [st o|st cv rq|st cv]; destruct r as [rc|rf|rj rnd];
    try discriminate; inversion Hr as [Heq]; clear Hr.
  - unfold afterCapture, throw in Heq. destruct rc; inversion Heq; subst.
    unfold wellFormed; cbn. auto.
  - unfold afterFetch, throw in Heq. destruct rf as [|message|ok status];
      try discriminate. destruct (negb ok); inversion Heq; subst.
    unfold wellFormed; cbn. auto.
  - unfold afterJson, finish, throw in Heq. exfalso.
    destruct rj as [message|data]; [discriminate|].
    destruct (skipped data); [discriminate|].
    destruct (best_match data) as [m|]; [|discriminate].
    destruct (seenIsAutoScan (closure inv)); [|discriminate].
    destruct (label m); discriminate.
Qed.

Lemma afterAwait_keeps (delay : float) (now : Z) (e : EffectRun) :
  isActive (afterAwait delay now e) = isActive e
  /\ seen (afterAwait delay now e) = seen e
  /\ loopCall (afterAwait delay now e).
Proof.
  unfold afterAwait. cbn [setLastFrameTime isActive seen].
  destruct (isActive e && seenIsAutoScan (seen e)) eqn:Hc;
    unfold loopCall; cbn; repeat split.
  apply andb_prop in Hc. tauto.
Qed.

Lemma loop_keeps (cameraRef : bool) (now : Z) (e e' : EffectRun) (s s' : State) :
  loop cameraRef now e s = (s', e') ->
  isActive e' = isActive e /\ seen e' = seen e /\ loopCall e'
  /\ isAutoScan s' = isAutoScan s.
Proof.
  unfold loop. intros H.
  destruct (negb (isActive e) || negb (seenIsAutoScan (seen e))) eqn:Hc.
  - inversion H; subst; clear H. unfold loopCall; cbn. auto.
  - apply orb_false_elim in Hc. destruct Hc as [_ Hs].
    apply negb_false_iff in Hs.
    destruct (processFrame (seen e) false cameraRef now s) as [[s1 inv]|] eqn:Hp;
      inversion H; subst; clear H.
    + destruct (processFrame_call _ _ _ _ _ _ _ Hp) as (H1 & H2 & [o Ho] & H4).
      unfold loopCall, wellFormed; cbn. rewrite Ho. repeat split; auto.
    + match goal with
      | |- context [afterAwait ?d now e] =>
          destruct (afterAwait_keeps d now e) as (H1 & H2 & H3)
      end.
      auto.
Qed.

Lemma effect_keeps (cameraRef : bool) (now : Z) (s s' : State) (e : EffectRun) :
  effect cameraRef now s = (s', e) ->
  isActive e = true /\ seen e = render s /\ loopCall e
  /\ isAutoScan s' = isAutoScan s.
Proof.
  unfold effect. intros H. destruct (isAutoScan s) eqn:Hauto.
  - destruct (loop cameraRef now _ s) as [s1 e1] eqn:Hl.
    inversion H; subst; clear H.
    destruct (loop_keeps _ _ _ _ _ _ Hl) as (H1 & H2 & H3 & H4).
    cbn in H1, H2. rewrite H1, H2. cbn. rewrite H4. auto.
  - inversion H; subst; clear H. unfold loopCall; cbn. auto.
Qed.

Lemma Invariant_mounted : Invariant mounted.
Proof.
  split; cbn.
  - repeat split; constructor.
  - repeat constructor.
  - constructor.
Qed.

Lemma Invariant_step (dev : Platform) (w w' : World) (ev : Event) :
  Invariant w -> step dev w ev = Some w' -> Invariant w'.
Proof.
  intros [Ho Hl Hp] Hs.
  destruct ev as [cam now|cam now|i cam now|[i|i] r now]; cbn [step] in Hs.
  - destruct (effect cam now (setIsAutoScan negb (ui w))) as [s e] eqn:He.
    inversion Hs; subst; clear Hs.
    destruct (effect_keeps _ _ _ _ _ He) as (H1 & H2 & H3 & H4).
    split; cbn.
    + rewrite H1, H2, H4. cbn. repeat split.
      destruct (effectRuns w) as [|e0 old]; [constructor|].
      destruct Ho as (_ & _ & Hold). constructor; auto. reflexivity.
    + constructor; auto.
      destruct (effectRuns w) as [|e0 old]; [constructor|].
      inversion Hl; subst. constructor; auto.
    + exact Hp.
  - destruct (isAutoScan (ui w)) eqn:Hauto; [discriminate|].
    destruct (processFrame (render (ui w)) true cam now (ui w))
      as [[s inv]|] eqn:Hpf.
    + inversion Hs; subst; clear Hs.
      destruct (processFrame_call _ _ _ _ _ _ _ Hpf) as (H1 & H2 & [o H3] & H4).
      split; cbn.
      * rewrite H4, Hauto. exact Ho.
      * exact Hl.
      * apply Forall_app. split; [exact Hp|]. constructor; [|constructor].
        unfold pressCall, wellFormed. rewrite H1, H2, H3. cbn. auto.
    + inversion Hs; subst. split; auto. rewrite Hauto; exact Ho.
  - destruct (nth_error (effectRuns w) i) as [e|] eqn:Hn; [|discriminate].
    destruct (phase e); try discriminate.
    destruct (loop cam now e (ui w)) as [s e'] eqn:Hloop.
    inversion Hs; subst; clear Hs.
    destruct (loop_keeps _ _ _ _ _ _ Hloop) as (H1 & H2 & H3 & H4).
    split; cbn.
    + rewrite H4. eapply ordered_replace; eauto.
    + apply Forall_replace; auto.
    + exact Hp.
  - destruct (nth_error (effectRuns w) i) as [e|] eqn:Hn; [|discriminate].
    destruct (phase e) as [|d|d inv] eqn:Hph; try discriminate.
    destruct (resume dev inv r now (ui w)) as [[s c]|] eqn:Hr; [|discriminate].
    pose proof (resume_mode _ _ _ _ _ _ _ Hr) as Hm.
    pose proof (Forall_nth_error _ _ _ _ Hl Hn) as Hle.
    unfold loopCall in Hle. rewrite Hph in Hle.
    destruct Hle as (L1 & L2 & L3 & L4).
    destruct c as [inv'|o]; inversion Hs; subst; clear Hs; split; cbn.
    + rewrite Hm. eapply ordered_replace; eauto.
    + apply Forall_replace; auto.
      destruct (resume_suspended _ _ _ _ _ _ _ Hr) as (R1 & R2 & R3).
      unfold loopCall; cbn. rewrite R1, R2. auto.
    + exact Hp.
    + rewrite Hm.
      destruct (afterAwait_keeps d now e) as (A1 & A2 & A3).
      eapply ordered_replace; eauto.
    + apply Forall_replace; auto. apply afterAwait_keeps.
    + exact Hp.
  - destruct (nth_error (manualScans w) i) as [inv|] eqn:Hn; [|discriminate].
    destruct (resume dev inv r now (ui w)) as [[s c]|] eqn:Hr; [|discriminate].
    pose proof (resume_mode _ _ _ _ _ _ _ Hr) as Hm.
    pose proof (Forall_nth_error _ _ _ _ Hp Hn) as (P1 & P2 & P3).
    destruct c as [inv'|o]; inversion Hs; subst; clear Hs; split; cbn;
      try rewrite Hm; auto.
    + apply Forall_replace; auto.
      destruct (resume_suspended _ _ _ _ _ _ _ Hr) as (R1 & R2 & R3).
      unfold pressCall. rewrite R1, R2. auto.
    + apply Forall_remove; auto.
Qed.

Lemma Invariant_reachable (dev : Platform) (w : World) :
  reachable dev w -> Invariant w.
Proof.
  induction 1 as [|w w' ev Hw IH Hs].
  - exact Invariant_mounted.
  - eapply Invariant_step; eauto.
Qed.

(** ** Outcomes *)

Ltac split_hyp H :=
  repeat match type of H with
    | context [if ?b then _ else _] => destruct b eqn:?
    | context [match ?x with _ => _ end] => destruct x eqn:?
    end.

(** The last segment of a call that ends [Skipped]. *)
Lemma resume_skipped (dev : Platform) (inv : Invocation) (r : Settlement)
    (now : Z) (s s' : State) :
  resume dev inv r now s = Some (s', Returned Skipped) ->
  frameCounter s' = frameCounter s + 1
  /\ result s' = result s /\ activeBox s' = activeBox s
  /\ logs s' = logs s /\ alerts s' = alerts s /\ scanning s' = false.
Proof.
  intros Hr. unfold resume in Hr.
  destruct (stage inv) as [st o|st cv rq|st cv]; destruct r as [rc|rf|rj rnd];
    try discriminate; inversion Hr as [Heq]; clear Hr.
  - unfold afterCapture, throw in Heq. destruct rc; discriminate.
  - unfold afterFetch, throw in Heq. split_hyp Heq; discriminate.
  - unfold afterJson, finish, throw in Heq.
    destruct rj as [message|data]; [discriminate|].
    destruct (skipped data).
    + inversion Heq; subst. repeat split; reflexivity.
    + split_hyp Heq; discriminate.
Qed.

(** C5. A call that ends because the body says [skipped] adds exactly 1 to
    the frame counter and leaves [result], [activeBox] and the log as they
    were (so no "ERROR" entry is added); this holds of the settlement that
    ends the call and of a whole streaming call, and a streaming call that
    sent frame_idx 7 with the counter at 7 leaves the counter at 8. *)
Theorem skipped_adds_one_and_keeps_result :
  forall (dev : Platform) (inv : Invocation) (r : Settlement) (now : Z)
         (s s' : State),
    resume dev inv r now s = Some (s', Returned Skipped) ->
    (frameCounter s' = frameCounter s + 1
     /\ result s' = result s /\ activeBox s' = activeBox s
     /\ logs s' = logs s /\ alerts s' = alerts s)
    /\ (forall (seen : Render) cameraRef start rc rf rj random t0 t1,
          processFrameWhole dev seen false cameraRef start rc rf rj random now t0
            = Some (t1, Skipped) ->
          frameCounter t1 = frameCounter t0 + 1
          /\ result t1 = result t0 /\ activeBox t1 = activeBox t0
          /\ logs t1 = logs t0 /\ alerts t1 = alerts t0)
    /\ frame_idx (formRequest (render atFrame7)) = Some "7"
    /\ option_map (fun so => frameCounter (fst so))
         (streamingCall phone skippedFrame atFrame7) = Some 8.
Proof.
  intros dev inv r now s s' Hr. split; [|split; [|split]].
  - destruct (resume_skipped dev inv r now s s' Hr) as (H1 & H2 & H3 & H4 & H5 & _).
    auto.
  - intros seen0 cameraRef start rc rf rj random t0 t1 Hw.
    unfold processFrameWhole in Hw.
    destruct (processFrame seen0 false cameraRef start t0) as [[u0 inv0]|] eqn:Hp;
      [|discriminate].
    assert (Hu0 : frameCounter u0 = frameCounter t0 /\ result u0 = result t0
                  /\ activeBox u0 = activeBox t0 /\ logs u0 = logs t0
                  /\ alerts u0 = alerts t0).
    { unfold processFrame in Hp.
      split_hyp Hp; try discriminate; inversion Hp; subst;
        repeat split; reflexivity. }
    destruct Hu0 as (F0 & R0 & B0 & L0 & A0).
    destruct rc as [message|photo]; [unfold afterCapture, throw in Hw; discriminate|].
    cbn [afterCapture] in Hw.
    unfold resume at 1 in Hw. cbn [stage suspend] in Hw.
    destruct rf as [|message|ok status];
      try (unfold afterFetch, throw in Hw; discriminate).
    unfold afterFetch in Hw.
    destruct (negb ok); [unfold throw in Hw; discriminate|].
    destruct (resume dev _ (JsonSettled rj random) now (setIsConnected true u0))
      as [[u3 [inv3|o3]]|] eqn:Hj; try discriminate.
    inversion Hw; subst; clear Hw.
    destruct (resume_skipped _ _ _ _ _ _ Hj) as (H1 & H2 & H3 & H4 & H5 & _).
    cbn in H1, H2, H3, H4, H5.
    rewrite H1, H2, H3, H4, H5, F0, R0, B0, L0. unfold alerts in *. cbn. auto.
  - reflexivity.
  - reflexivity.
Qed.

Lemma skipped_adds_one_and_keeps_result_witness :
  exists s',
    resume phone
      {| isManualScan := false; closure := render atFrame7;
         stage := AwaitJson 0 (cover phone vga) |}
      (JsonSettled (Json skippedFrame) 0) 5 atFrame7
      = Some (s', Returned Skipped)
    /\ frameCounter s' = 8
    /\ result s' = result atFrame7 /\ activeBox s' = activeBox atFrame7
    /\ logs s' = logs atFrame7.
Proof.
  eexists. split; [reflexivity|].
  destruct (skipped_adds_one_and_keeps_result phone
              {| isManualScan := false; closure := render atFrame7;
                 stage := AwaitJson 0 (cover phone vga) |}
              (JsonSettled (Json skippedFrame) 0) 5 atFrame7 _ eq_refl)
    as ((H1 & H2 & H3 & H4 & _) & _).
  repeat split; assumption.
Defined.

(** What the [catch] and [finally] blocks leave behind. *)
Lemma throw_state (inv : Invocation) (message : string) (s : State) :
  let s' := fst (throw inv message s) in
  isConnected s' = false
  /\ logs s' = pushLog ("ERROR: " ++ JS.substring0 20 message) (logs s)
  /\ scanning s' = false
  /\ alerts s' = (if isManualScan inv then S (alerts s) else alerts s)
  /\ frameCounter s' = frameCounter s
  /\ result s' = result s /\ activeBox s' = activeBox s.
Proof.
  unfold throw, finally_block, catch_block, alerts.
  destruct (isManualScan inv); cbn; repeat split; reflexivity.
Qed.

Lemma throw_failure (inv : Invocation) (m message : string) (s s' : State) :
  throw inv m s = (s', Returned (Failure message)) ->
  isConnected s' = false
  /\ hd_error (logs s') = Some ("ERROR: " ++ JS.substring0 20 message)
  /\ scanning s' = false
  /\ alerts s' = (if isManualScan inv then S (alerts s) else alerts s)
  /\ frameCounter s' = frameCounter s
  /\ result s' = result s /\ activeBox s' = activeBox s.
Proof.
  intros H.
  assert (Hm : message = m) by (unfold throw in H; congruence).
  assert (Hs : s' = fst (throw inv m s)) by (rewrite H; reflexivity).
  subst message s'.
  destruct (throw_state inv m s) as (T1 & T2 & T3 & T4 & T5 & T6 & T7).
  rewrite T2. repeat split; assumption.
Qed.

(** The last segment of a call that ends in the [catch] block. *)
Lemma resume_failure (dev : Platform) (inv : Invocation) (r : Settlement)
    (now : Z) (s s' : State) (message : string) :
  resume dev inv r now s = Some (s', Returned (Failure message)) ->
  isConnected s' = false
  /\ hd_error (logs s') = Some ("ERROR: " ++ JS.substring0 20 message)
  /\ scanning s' = false
  /\ alerts s' = (if isManualScan inv then S (alerts s) else alerts s)
  /\ frameCounter s' = frameCounter s.
Proof.
  intros Hr. unfold resume in Hr.
  destruct (stage inv) as [st o|st cv rq|st cv]; destruct r as [rc|rf|rj rnd];
    try discriminate; inversion Hr as [Heq]; clear Hr.
  - unfold afterCapture in Heq. destruct rc as [m|photo]; [|discriminate].
    destruct (throw_failure _ _ _ _ _ Heq) as (T1 & T2 & T3 & T4 & T5 & _); auto.
  - unfold afterFetch in Heq.
    destruct rf as [|m|ok status];
      [| |destruct (negb ok); [|discriminate]];
      destruct (throw_failure _ _ _ _ _ Heq) as (T1 & T2 & T3 & T4 & T5 & _); auto.
  - unfold afterJson in Heq.
    destruct rj as [m|data].
    + destruct (throw_failure _ _ _ _ _ Heq) as (T1 & T2 & T3 & T4 & T5 & _); auto.
    + destruct (skipped data); [discriminate|].
      destruct (best_match data) as [m|]; [|unfold finish in Heq; discriminate].
      destruct (seenIsAutoScan (closure inv));
        [|unfold finish in Heq; discriminate].
      destruct (label m); [unfold finish in Heq; discriminate|].
      cbv zeta in Heq.
      destruct (throw_failure _ _ _ _ _ Heq) as (T1 & T2 & T3 & T4 & T5 & _).
      rewrite T4, T5. unfold alerts.
      repeat split; try assumption;
        destruct (metrics_fps data); branches; reflexivity.
Qed.

Lemma pending_loop (w : World) (i : nat) (inv : Invocation) :
  pending w (OfLoop i) = Some inv ->
  exists e delay,
    nth_error (effectRuns w) i = Some e /\ phase e = Awaiting delay inv.
Proof.
  unfold pending. destruct (nth_error (effectRuns w) i) as [e|]; [|discriminate].
  destruct (phase e) as [|d|d inv0] eqn:Hp; try discriminate.
  intros H; inversion H; subst. eauto.
Qed.

Lemma step_loop_returned (dev : Platform) (w : World) (i : nat) (e : EffectRun)
    (delay : float) (inv : Invocation) (r : Settlement) (now : Z) (s' : State)
    (o : Outcome) :
  nth_error (effectRuns w) i = Some e -> phase e = Awaiting delay inv ->
  resume dev inv r now (ui w) = Some (s', Returned o) ->
  step dev w (Settles (OfLoop i) r now)
  = Some {| ui := s';
            effectRuns := replace i (afterAwait delay now e) (effectRuns w);
            manualScans := manualScans w |}.
Proof. intros Hn Hp Hr. cbn [step]. rewrite Hn, Hp, Hr. reflexivity. Qed.

Lemma step_press_returned (dev : Platform) (w : World) (i : nat)
    (inv : Invocation) (r : Settlement) (now : Z) (s' : State) (o : Outcome) :
  nth_error (manualScans w) i = Some inv ->
  resume dev inv r now (ui w) = Some (s', Returned o) ->
  step dev w (Settles (OfPress i) r now)
  = Some {| ui := s'; effectRuns := effectRuns w;
            manualScans := remove i (manualScans w) |}.
Proof. intros Hn Hr. cbn [step]. rewrite Hn, Hr. reflexivity. Qed.

Lemma afterAwait_active (delay : float) (now : Z) (e : EffectRun) :
  isActive e = true -> seenIsAutoScan (seen e) = true ->
  afterAwait delay now e
  = {| isActive := true; lastFrameTime := now; seen := seen e;
       phase := TimerPending delay |}.
Proof.
  intros Ha Hs. unfold afterAwait. cbn [setLastFrameTime isActive seen].
  rewrite Ha, Hs. unfold setPhase, setLastFrameTime. cbn. rewrite Ha.
  reflexivity.
Qed.

Lemma afterAwait_inactive (delay : float) (now : Z) (e : EffectRun) :
  isActive e = false -> phase (afterAwait delay now e) = Idle.
Proof.
  intros Ha. unfold afterAwait. cbn [setLastFrameTime isActive seen].
  rewrite Ha. reflexivity.
Qed.

(** C4, as stated, fails: whether the alert is shown does not follow the
    mode the screen is in when the call fails.  A scan started by the
    trigger fails after the switch was set to AUTO: the alert is shown in
    auto mode.  A streaming request fails after the switch was set back to
    manual: no alert is shown in manual mode. *)
Lemma alert_follows_caller_not_mode :
  (run phone mounted pressThenSwitch = Some (after phone pressThenSwitch)
   /\ isAutoScan (ui (after phone pressThenSwitch)) = true
   /\ isConnected (ui (after phone pressThenSwitch)) = false
   /\ hd_error (logs (ui (after phone pressThenSwitch)))
      = Some "ERROR: Camera is not runnin"
   /\ alerts (ui (after phone pressThenSwitch)) = 1%nat)
  /\ (run phone mounted failsAfterSwitchBack
      = Some (after phone failsAfterSwitchBack)
      /\ isAutoScan (ui (after phone failsAfterSwitchBack)) = false
      /\ isConnected (ui (after phone failsAfterSwitchBack)) = false
      /\ hd_error (logs (ui (after phone failsAfterSwitchBack)))
         = Some "ERROR: Network request fail"
      /\ alerts (ui (after phone failsAfterSwitchBack)) = 0%nat).
Proof. repeat split; vm_compute; reflexivity. Qed.

(** C4, amended.  When a call of [processFrame] ends in a failure, the
    screen goes offline and an "ERROR: <reason>" entry (the first 20
    characters of the reason) heads the log, in either mode.  Whether the
    alert is shown follows the caller, not the mode at the time of the
    failure.  For a call made by the auto-scan loop ([isManualScan] is
    false) no alert is shown and the loop goes on: if its effect is still
    active, the timer of the next cycle is armed.  For a call made by the
    trigger ([isManualScan] is true) the alert is shown. *)
Theorem failure_goes_offline_alert_only_manual :
  forall (dev : Platform) (w : World) (t : Target) (r : Settlement) (now : Z)
         (inv : Invocation) (s' : State) (message : string),
    reachable dev w ->
    pending w t = Some inv ->
    resume dev inv r now (ui w) = Some (s', Returned (Failure message)) ->
    exists w',
      step dev w (Settles t r now) = Some w' /\ ui w' = s'
      /\ isAutoScan s' = isAutoScan (ui w)
      /\ isConnected s' = false
      /\ hd_error (logs s') = Some ("ERROR: " ++ JS.substring0 20 message)
      /\ match t with
         | OfLoop i =>
             isManualScan inv = false
             /\ alerts s' = alerts (ui w)
             /\ exists e delay,
                  nth_error (effectRuns w) i = Some e
                  /\ phase e = Awaiting delay inv
                  /\ nth_error (effectRuns w') i = Some (afterAwait delay now e)
                  /\ (isActive e = true ->
                      phase (afterAwait delay now e) = TimerPending delay)
         | OfPress _ =>
             isManualScan inv = true
             /\ alerts s' = S (alerts (ui w))
         end.
Proof.
  intros dev w t r now inv s' message Hw Hp Hr.
  destruct (Invariant_reachable dev w Hw) as [_ Hl Hm].
  pose proof (resume_mode dev inv r now (ui w) s' _ Hr) as Hmode.
  destruct (resume_failure dev inv r now (ui w) s' message Hr)
    as (F1 & F2 & _ & F4 & _).
  destruct t as [i|i].
  - destruct (pending_loop w i inv Hp) as (e & delay & Hn & Hph).
    pose proof (Forall_nth_error _ _ _ _ Hl Hn) as Hle.
    unfold loopCall in Hle. rewrite Hph in Hle.
    destruct Hle as (L1 & _ & L3 & _).
    eexists. split; [eapply step_loop_returned; eauto|].
    cbn [ui effectRuns].
    split; [reflexivity|]. split; [exact Hmode|]. split; [exact F1|].
    split; [exact F2|]. split; [exact L1|].
    split; [rewrite F4, L1; reflexivity|].
    exists e, delay. split; [exact Hn|]. split; [exact Hph|].
    split; [eapply nth_error_replace; eauto|].
    intros Ha. rewrite afterAwait_active; auto.
  - cbn [pending] in Hp.
    pose proof (Forall_nth_error _ _ _ _ Hm Hp) as (P1 & _).
    eexists. split; [eapply step_press_returned; eauto|].
    cbn [ui].
    split; [reflexivity|]. split; [exact Hmode|]. split; [exact F1|].
    split; [exact F2|]. split; [exact P1|].
    rewrite F4, P1. reflexivity.
Qed.

Lemma failure_goes_offline_alert_only_manual_witness :
  reachable phone (after phone firstSubmission)
  /\ exists w',
       step phone (after phone firstSubmission)
         (Settles (OfLoop 0)
            (FetchSettled (FetchRejected "Network request failed")) 300)
       = Some w'
       /\ isConnected (ui w') = false
       /\ hd_error (logs (ui w')) = Some "ERROR: Network request fail"
       /\ alerts (ui w') = 0%nat.
Proof.
  pose proof (after_reachable phone firstSubmission) as Hreach.
  split; [exact Hreach|].
  destruct (failure_goes_offline_alert_only_manual phone
              (after phone firstSubmission) (OfLoop 0)
              (FetchSettled (FetchRejected "Network request failed")) 300
              _ _ _ Hreach eq_refl eq_refl)
    as (w' & Hstep & Hui & _ & Hoff & Hlog & _ & Halert & _).
  exists w'. rewrite Hui. repeat split; assumption.
Defined.

Lemma afterAwait_not_awaiting (delay : float) (now : Z) (e : EffectRun) :
  match phase (afterAwait delay now e) with
  | Awaiting _ _ => False
  | _ => True
  end.
Proof.
  unfold afterAwait.
  destruct (isActive (setLastFrameTime now e)
            && seenIsAutoScan (seen (setLastFrameTime now e))); exact I.
Qed.

Lemma resume_aborted (dev : Platform) (inv : Invocation) (startTime : Z)
    (c : Cover) (request : Request) (now : Z) (s : State) :
  stage inv = AwaitFetch startTime c request ->
  resume dev inv (FetchSettled FetchAborted) now s
  = Some (fst (throw inv (abortMessage dev) s),
          Returned (Failure (abortMessage dev))).
Proof. intros Hst. unfold resume. rewrite Hst. reflexivity. Qed.

(** C3. A submission made by the trigger arms its abort timer with
    15000 ms and one made by the auto-scan loop with 5000 ms.  When the
    timer fires while the request is outstanding, [fetch] is aborted and
    the call ends as a failure whose reason is the abort: the request is
    no longer outstanding, the screen is offline, [scanning] is false
    again, and the alert is shown for the trigger's call and not for the
    loop's. *)
Theorem abort_timer_bounds_submission :
  forall (dev : Platform) (w : World) (t : Target) (inv : Invocation)
         (startTime : Z) (c : Cover) (request : Request) (now : Z),
    reachable dev w ->
    pending w t = Some inv ->
    stage inv = AwaitFetch startTime c request ->
    abortAfter request
      = match t with OfPress _ => 15000 | OfLoop _ => 5000 end
    /\ endpoint request
       = match t with
         | OfPress _ => PREDICT_ENDPOINT
         | OfLoop _ => STREAM_ENDPOINT
         end
    /\ exists w',
         step dev w (Settles t (FetchSettled FetchAborted) now) = Some w'
         /\ resume dev inv (FetchSettled FetchAborted) now (ui w)
            = Some (ui w', Returned (Failure (abortMessage dev)))
         /\ scanning (ui w') = false
         /\ isConnected (ui w') = false
         /\ match t with
            | OfPress i =>
                alerts (ui w') = S (alerts (ui w))
                /\ manualScans w' = remove i (manualScans w)
            | OfLoop _ =>
                alerts (ui w') = alerts (ui w) /\ pending w' t = None
            end.
Proof.
  intros dev w t inv startTime c request now Hw Hp Hst.
  destruct (Invariant_reachable dev w Hw) as [_ Hl Hm].
  pose proof (resume_aborted dev inv startTime c request now (ui w) Hst) as Hr.
  destruct (resume_failure dev inv _ now (ui w) _ _ Hr) as (F1 & _ & F3 & F4 & _).
  destruct t as [i|i].
  - destruct (pending_loop w i inv Hp) as (e & delay & Hn & Hph).
    pose proof (Forall_nth_error _ _ _ _ Hl Hn) as Hle.
    unfold loopCall in Hle. rewrite Hph in Hle.
    destruct Hle as (L1 & L2 & L3 & L4).
    unfold wellFormed in L4. rewrite Hst in L4. subst request.
    rewrite L2. unfold formRequest. rewrite L3. cbn [abortAfter endpoint].
    split; [reflexivity|]. split; [reflexivity|].
    eexists. split; [eapply step_loop_returned; eauto|].
    cbn [ui]. repeat split; auto.
    + rewrite F4, L1. reflexivity.
    + cbn [pending effectRuns].
      rewrite (nth_error_replace _ _ _ _ Hn).
      pose proof (afterAwait_not_awaiting delay now e) as Hna.
      destruct (phase (afterAwait delay now e)); [reflexivity|reflexivity|].
      destruct Hna.
  - cbn [pending] in Hp.
    pose proof (Forall_nth_error _ _ _ _ Hm Hp) as (P1 & P2 & P3).
    unfold wellFormed in P3. rewrite Hst in P3. subst request.
    unfold formRequest. rewrite P2. cbn [abortAfter endpoint].
    split; [reflexivity|]. split; [reflexivity|].
    eexists. split; [eapply step_press_returned; eauto|].
    cbn [ui manualScans]. repeat split; auto.
    rewrite F4, P1. reflexivity.
Qed.

Lemma abort_timer_bounds_submission_witness :
  reachable phone (after phone manualSubmission)
  /\ exists w',
       step phone (after phone manualSubmission)
         (Settles (OfPress 0) (FetchSettled FetchAborted) 15010) = Some w'
       /\ scanning (ui w') = false
       /\ isConnected (ui w') = false
       /\ alerts (ui w') = 1%nat
       /\ manualScans w' = [].
Proof.
  pose proof (after_reachable phone manualSubmission) as Hreach.
  split; [exact Hreach|].
  destruct (abort_timer_bounds_submission phone (after phone manualSubmission)
              (OfPress 0) _ _ _ _ 15010 Hreach eq_refl eq_refl)
    as (_ & _ & w' & Hstep & _ & Hscan & Hoff & Halert & Hleft).
  exists w'. repeat split; assumption.
Defined.

(** ** The frame counter and the frame index *)

(** In a streaming call the counter goes up by one when the call ends with
    a result or a skip, and stays when it ends in the [catch] block. *)
Lemma frameCounter_by_outcome (dev : Platform) (inv : Invocation)
    (r : Settlement) (now : Z) (s s' : State) (o : Outcome) :
  seenIsAutoScan (closure inv) = true ->
  resume dev inv r now s = Some (s', Returned o) ->
  frameCounter s'
  = match o with
    | Failure _ => frameCounter s
    | _ => frameCounter s + 1
    end.
Proof.
  intros Hauto Hr. destruct o as [m| |message].
  - unfold resume in Hr.
    destruct (stage inv) as [st op|st cv rq|st cv]; destruct r as [rc|rf|rj rnd];
      try discriminate; inversion Hr as [Heq]; clear Hr.
    + unfold afterCapture, throw in Heq. destruct rc; discriminate.
    + unfold afterFetch, throw in Heq. split_hyp Heq; discriminate.
    + unfold afterJson, finish, throw in Heq. rewrite Hauto in Heq.
      destruct rj as [message|data]; [discriminate|].
      destruct (skipped data); [discriminate|].
      destruct (metrics_fps data) as [f|];
        destruct (best_match data) as [bm|];
        split_hyp Heq; try discriminate; inversion Heq; subst; reflexivity.
  - apply (resume_skipped dev inv r now s s' Hr).
  - apply (resume_failure dev inv r now s s' message Hr).
Qed.

(** Every request of a loop carries the counter that the render of its
    effect run saw, whatever the counter has become since. *)
Lemma loop_request_index (dev : Platform) (w : World) (i : nat) (e : EffectRun)
    (delay : float) (inv : Invocation) (startTime : Z) (c : Cover)
    (request : Request) :
  reachable dev w ->
  nth_error (effectRuns w) i = Some e ->
  phase e = Awaiting delay inv ->
  stage inv = AwaitFetch startTime c request ->
  frame_idx request = Some (JS.toString (seenFrameCounter (seen e))).
Proof.
  intros Hw Hn Hph Hst.
  destruct (Invariant_reachable dev w Hw) as [_ Hl _].
  pose proof (Forall_nth_error _ _ _ _ Hl Hn) as Hle.
  unfold loopCall in Hle. rewrite Hph in Hle.
  destruct Hle as (_ & L2 & L3 & L4).
  unfold wellFormed in L4. rewrite Hst in L4. subst request.
  unfold formRequest. rewrite L2, L3. reflexivity.
Qed.

(** C10, at the failing run.  Auto mode is switched on with the counter at
    0; the first request carries frame_idx 0; the first cycle completes
    without failure and the counter becomes 1; the second request of the
    same loop carries frame_idx 0 again. *)
Theorem second_request_repeats_frame_idx :
  submittedIndex (after phone firstSubmission) (OfLoop 0) = Some "0"
  /\ frameCounter (ui (after phone secondSubmission)) = 1
  /\ submittedIndex (after phone secondSubmission) (OfLoop 0) = Some "0".
Proof. repeat split; reflexivity. Qed.

(** ** The overlay box and the result *)

Lemma throw_overlay (inv : Invocation) (message : string) (s : State) :
  activeBox (fst (throw inv message s)) = activeBox s
  /\ result (fst (throw inv message s)) = result s.
Proof.
  unfold throw, finally_block, catch_block.
  destruct (isManualScan inv); split; reflexivity.
Qed.

Lemma finish_overlay (inv : Invocation) (startTime now : Z) (m : option Match)
    (s : State) :
  activeBox (fst (finish inv startTime now m s)) = activeBox s
  /\ result (fst (finish inv startTime now m s)) = result s.
Proof. unfold finish, finally_block. branches; split; reflexivity. Qed.

Lemma resume_overlay (dev : Platform) (inv : Invocation) (r : Settlement)
    (now : Z) (s s' : State) (c : Control) :
  resume dev inv r now s = Some (s', c) ->
  (activeBox s' = activeBox s /\ (result s' = result s \/ result s' <> None))
  \/ setWithResult s' \/ clearedWithNoMatch s'.
Proof.
  intros Hr. unfold resume in Hr.
  destruct (stage inv) as [st o|st cv rq|st cv]; destruct r as [rc|rf|rj rnd];
    try discriminate; inversion Hr as [Heq]; clear Hr;
    apply (f_equal fst) in Heq; cbn [fst] in Heq; subst s'.
  - left. unfold afterCapture. destruct rc as [m|photo].
    + destruct (throw_overlay inv m s) as [H1 H2]. rewrite H1, H2. auto.
    + cbn. auto.
  - left. unfold afterFetch. destruct rf as [|m|ok status].
    + destruct (throw_overlay inv (abortMessage dev) s) as [H1 H2].
      rewrite H1, H2. auto.
    + destruct (throw_overlay inv m s) as [H1 H2]. rewrite H1, H2. auto.
    + destruct (negb ok).
      * destruct (throw_overlay inv ("Status: " ++ JS.toString status) s)
          as [H1 H2]. rewrite H1, H2. auto.
      * cbn. auto.
  - unfold afterJson. destruct rj as [m|data].
    + left. destruct (throw_overlay inv m s) as [H1 H2]. rewrite H1, H2. auto.
    + destruct (skipped data); [left; cbn; auto|]. cbv zeta.
      destruct (best_match data) as [m|].
      * match goal with
        | |- context [if seenIsAutoScan (closure inv) then
                        match label m with
                        | Some l => finish _ _ _ _ (addLog _ ?s1)
                        | None => throw _ _ _
                        end
                      else _] =>
            assert (Hres : result s1 = Some m)
              by (destruct (bbox m); branches; reflexivity);
            assert (Hbox :
              match bbox m with
              | Some b =>
                  activeBox s1
                  = Some {| box := scaledBox cv b; boxLabel := label m |}
              | None => activeBox s1 = activeBox s
              end)
              by (destruct (bbox m); branches; reflexivity);
            assert (Hend :
              activeBox
                (fst (if seenIsAutoScan (closure inv) then
                        match label m with
                        | Some l =>
                            finish inv st now (Some m)
                              (addLog ("DETECTED: " ++ toUpperCase dev l) s1)
                        | None => throw inv (typeErrorMessage dev) s1
                        end
                      else finish inv st now (Some m) s1))
              = activeBox s1
              /\ result
                (fst (if seenIsAutoScan (closure inv) then
                        match label m with
                        | Some l =>
                            finish inv st now (Some m)
                              (addLog ("DETECTED: " ++ toUpperCase dev l) s1)
                        | None => throw inv (typeErrorMessage dev) s1
                        end
                      else finish inv st now (Some m) s1))
              = result s1)
        end.
        { destruct (seenIsAutoScan (closure inv)); [destruct (label m)|].
          - match goal with
            | |- context [finish ?a ?b ?c ?d ?e] =>
                destruct (finish_overlay a b c d e) as [H1 H2]
            end.
            rewrite H1, H2. split; reflexivity.
          - apply throw_overlay.
          - apply finish_overlay. }
        destruct Hend as [E1 E2].
        destruct (bbox m) as [b|] eqn:Hb.
        -- right; left. exists m, b, cv. rewrite E1, E2. auto.
        -- left. rewrite E1, E2, Hbox, Hres. split; [reflexivity|].
           right. discriminate.
      * right; right. unfold clearedWithNoMatch.
        match goal with
        | |- context [finish ?a ?b ?c ?d ?e] =>
            destruct (finish_overlay a b c d e) as [H1 H2]
        end.
        rewrite H1, H2. destruct (metrics_fps data); branches; split; reflexivity.
Qed.

Lemma processFrame_overlay (r : Render) (manual cameraRef : bool) (now : Z)
    (s s' : State) (inv : Invocation) :
  processFrame r manual cameraRef now s = Some (s', inv) ->
  activeBox s' = activeBox s
  /\ result s' = (if manual then None else result s).
Proof.
  unfold processFrame. intros H.
  destruct (negb cameraRef); [discriminate|].
  destruct (seenScanning r && negb (seenIsAutoScan r)); [discriminate|].
  inversion H; subst; clear H. destruct manual; split; reflexivity.
Qed.

Lemma loop_overlay (cameraRef : bool) (now : Z) (e e' : EffectRun) (s s' : State) :
  loop cameraRef now e s = (s', e') ->
  activeBox s' = activeBox s /\ result s' = result s.
Proof.
  unfold loop. intros H.
  destruct (negb (isActive e) || negb (seenIsAutoScan (seen e))).
  - inversion H; subst. split; reflexivity.
  - destruct (processFrame (seen e) false cameraRef now s) as [[s1 inv]|] eqn:Hp;
      inversion H; subst; clear H.
    + apply (processFrame_overlay _ _ _ _ _ _ _ Hp).
    + split; reflexivity.
Qed.

Lemma effect_overlay (cameraRef : bool) (now : Z) (s s' : State) (e : EffectRun) :
  effect cameraRef now s = (s', e) ->
  result s' = result s
  /\ activeBox s' = (if isAutoScan s then activeBox s else None).
Proof.
  unfold effect. intros H. destruct (isAutoScan s).
  - destruct (loop cameraRef now _ s) as [s1 e1] eqn:Hl.
    inversion H; subst; clear H.
    destruct (loop_overlay _ _ _ _ _ _ Hl) as [H1 H2].
    cbn. rewrite H1, H2. split; reflexivity.
  - inversion H; subst. split; reflexivity.
Qed.

(** C7, as stated, fails: after a manual scan has found a deer, pressing
    the trigger again clears [result] and leaves the deer's box in
    [activeBox]; the state is reachable and the box has no result. *)
Lemma overlay_survives_cleared_result :
  reachable phone (after phone secondPress)
  /\ result (ui (after phone secondPress)) = None
  /\ activeBox (ui (after phone secondPress)) = Some deerBox
  /\ ~ overlayHasResult (ui (after phone secondPress)).
Proof.
  split; [apply after_reachable|]. split; [reflexivity|].
  split; [reflexivity|].
  intros H. destruct H as (m & b & Hres & _); [discriminate|].
  discriminate Hres.
Qed.

(** C7, amended.  In every transition [activeBox] keeps its value, or is
    set from the bounding box of the match that the same transition puts
    in [result], or is cleared: by an outcome without a match, which puts
    the "No Match" card in [result] in the same transition, or by the
    switch to manual mode, which leaves [result] as it is.  A press that
    starts a manual scan clears [result] and keeps [activeBox]. *)
Theorem overlay_set_with_result_cleared_with_no_match :
  forall (dev : Platform) (w w' : World) (ev : Event),
    step dev w ev = Some w' ->
    (activeBox (ui w') = activeBox (ui w)
     \/ setWithResult (ui w')
     \/ clearedWithNoMatch (ui w')
     \/ (exists cameraRef now,
           ev = Toggle cameraRef now /\ isAutoScan (ui w') = false
           /\ activeBox (ui w') = None /\ result (ui w') = result (ui w)))
    /\ (forall cameraRef now,
          ev = Press cameraRef now -> w' <> w ->
          result (ui w') = None /\ activeBox (ui w') = activeBox (ui w)).
Proof.
  intros dev w w' ev Hs.
  destruct ev as [cam now|cam now|i cam now|[i|i] r now]; cbn [step] in Hs.
  - split; [|intros c n He; discriminate].
    destruct (effect cam now (setIsAutoScan negb (ui w))) as [s e] eqn:He.
    inversion Hs; subst; clear Hs. cbn [ui].
    destruct (effect_overlay _ _ _ _ _ He) as [H1 H2].
    destruct (effect_keeps _ _ _ _ _ He) as (_ & _ & _ & H4).
    destruct (isAutoScan (setIsAutoScan negb (ui w))) eqn:Hauto.
    + left. exact H2.
    + right; right; right. exists cam, now. rewrite H4. auto.
  - destruct (isAutoScan (ui w)); [discriminate|].
    destruct (processFrame (render (ui w)) true cam now (ui w))
      as [[s inv]|] eqn:Hp; inversion Hs; subst; clear Hs.
    + destruct (processFrame_overlay _ _ _ _ _ _ _ Hp) as [H1 H2].
      cbn [ui]. split; [left; exact H1|]. intros c n _ _. auto.
    + split; [left; reflexivity|]. intros c n _ Hne. now destruct Hne.
  - split; [|intros c n He; discriminate].
    destruct (nth_error (effectRuns w) i) as [e|]; [|discriminate].
    destruct (phase e); try discriminate.
    destruct (loop cam now e (ui w)) as [s e'] eqn:Hl.
    inversion Hs; subst; clear Hs. left.
    apply (loop_overlay _ _ _ _ _ _ Hl).
  - split; [|intros c n He; discriminate].
    destruct (nth_error (effectRuns w) i) as [e|]; [|discriminate].
    destruct (phase e) as [|d|d inv]; try discriminate.
    destruct (resume dev inv r now (ui w)) as [[s c]|] eqn:Hr; [|discriminate].
    assert (Hui : ui w' = s) by (destruct c; inversion Hs; reflexivity).
    rewrite Hui.
    destruct (resume_overlay _ _ _ _ _ _ _ Hr) as [[H _]|[H|H]]; auto.
  - split; [|intros c n He; discriminate].
    destruct (nth_error (manualScans w) i) as [inv|]; [|discriminate].
    destruct (resume dev inv r now (ui w)) as [[s c]|] eqn:Hr; [|discriminate].
    assert (Hui : ui w' = s) by (destruct c; inversion Hs; reflexivity).
    rewrite Hui.
    destruct (resume_overlay _ _ _ _ _ _ _ Hr) as [[H _]|[H|H]]; auto.
Qed.

Lemma overlay_set_with_result_cleared_with_no_match_witness :
  step phone (after phone manualFetched)
    (Settles (OfPress 0) (JsonSettled (Json (found deer)) 0) 201)
  = Some (after phone manualFound)
  /\ (activeBox (ui (after phone manualFound))
      = activeBox (ui (after phone manualFetched))
      \/ setWithResult (ui (after phone manualFound))
      \/ clearedWithNoMatch (ui (after phone manualFound))
      \/ (exists cameraRef now,
            Settles (OfPress 0) (JsonSettled (Json (found deer)) 0) 201
            = Toggle cameraRef now
            /\ isAutoScan (ui (after phone manualFound)) = false
            /\ activeBox (ui (after phone manualFound)) = None
            /\ result (ui (after phone manualFound))
               = result (ui (after phone manualFetched)))).
Proof.
  assert (Hstep :
    step phone (after phone manualFetched)
      (Settles (OfPress 0) (JsonSettled (Json (found deer)) 0) 201)
    = Some (after phone manualFound)) by reflexivity.
  split; [exact Hstep|].
  exact (proj1 (overlay_set_with_result_cleared_with_no_match phone
                  (after phone manualFetched) (after phone manualFound)
                  _ Hstep)).
Defined.

(** ** The scheduler *)

Lemma step_timer_awaiting (dev : Platform) (w : World) (i : nat) (e : EffectRun)
    (delay : float) (inv : Invocation) (cameraRef : bool) (now : Z) :
  nth_error (effectRuns w) i = Some e -> phase e = Awaiting delay inv ->
  step dev w (TimerFires i cameraRef now) = None.
Proof. intros Hn Hp. cbn [step]. rewrite Hn, Hp. reflexivity. Qed.

Lemma step_timer_idle (dev : Platform) (w : World) (i : nat) (e : EffectRun)
    (cameraRef : bool) (now : Z) :
  nth_error (effectRuns w) i = Some e -> phase e = Idle ->
  step dev w (TimerFires i cameraRef now) = None.
Proof. intros Hn Hp. cbn [step]. rewrite Hn, Hp. reflexivity. Qed.

(** The delay that [loop] computes at the top of a cycle. *)
Lemma loop_active (now : Z) (e : EffectRun) (s : State) :
  isActive e = true -> seenIsAutoScan (seen e) = true ->
  exists s' inv,
    loop true now e s
    = (s', setPhase
             (Awaiting
                (JS.Math_max 0
                   (targetInterval - JS.of_Z (now - lastFrameTime e))) inv) e)
    /\ isManualScan inv = false
    /\ exists options, stage inv = AwaitCapture now options.
Proof.
  intros Ha Hs. unfold loop. rewrite Ha, Hs. cbn [negb orb].
  unfold processFrame. rewrite Hs. cbn [negb andb].
  rewrite andb_false_r. eexists. eexists. split; [reflexivity|].
  cbn. eauto.
Qed.

(** C2, as stated, fails: once the first streaming request is out, the
    loop has one submission in flight and no timer; a timer callback has
    nothing to run, however long after the request was issued. *)
Lemma no_dispatch_while_request_outstanding :
  map loopInFlight (effectRuns (after phone firstSubmission)) = [1; 0]%nat
  /\ step phone (after phone firstSubmission) (TimerFires 0 true 1000) = None.
Proof. split; reflexivity. Qed.

(** C2, amended.  The loop of an effect run is, at any time, either
    stopped, or waiting for its timer, or waiting for its one call of
    [processFrame] to return.  While the call is outstanding there is no
    timer, so no next cycle is dispatched; when the call returns, with any
    outcome, [lastFrameTime] is set and, if the effect is still active, the
    timer is armed with the delay computed at the top of the cycle.  When
    that timer fires the next cycle starts: its delay is
    max(0, targetInterval - elapsed) with targetInterval = 1000/15 and
    elapsed the time since the previous call returned. *)
Theorem next_cycle_armed_when_call_returns :
  forall (dev : Platform) (w : World) (i : nat) (e : EffectRun),
    reachable dev w ->
    nth_error (effectRuns w) i = Some e ->
    targetInterval = (1000 / 15)%float
    /\ match phase e with
       | Idle =>
           forall cameraRef now, step dev w (TimerFires i cameraRef now) = None
       | Awaiting delay inv =>
           (forall cameraRef now,
              step dev w (TimerFires i cameraRef now) = None)
           /\ (forall r now s' o,
                 resume dev inv r now (ui w) = Some (s', Returned o) ->
                 exists w',
                   step dev w (Settles (OfLoop i) r now) = Some w'
                   /\ ui w' = s'
                   /\ nth_error (effectRuns w') i
                      = Some (afterAwait delay now e)
                   /\ (isActive e = true ->
                       afterAwait delay now e
                       = {| isActive := true; lastFrameTime := now;
                            seen := seen e;
                            phase := TimerPending delay |}))
       | TimerPending _ =>
           pending w (OfLoop i) = None
           /\ (forall now,
                 isActive e = true ->
                 exists w' inv,
                   step dev w (TimerFires i true now) = Some w'
                   /\ nth_error (effectRuns w') i
                      = Some
                          (setPhase
                             (Awaiting
                                (JS.Math_max 0
                                   (targetInterval
                                    - JS.of_Z (now - lastFrameTime e)))
                                inv) e)
                   /\ isManualScan inv = false
                   /\ exists options, stage inv = AwaitCapture now options)
       end.
Proof.
  intros dev w i e Hw Hn. split; [reflexivity|].
  destruct (Invariant_reachable dev w Hw) as [_ Hl _].
  pose proof (Forall_nth_error _ _ _ _ Hl Hn) as Hle. unfold loopCall in Hle.
  destruct (phase e) as [|d|d inv] eqn:Hph.
  - intros cam now. eapply step_timer_idle; eauto.
  - split.
    + unfold pending. rewrite Hn, Hph. reflexivity.
    + intros now Ha.
      destruct (loop_active now e (ui w) Ha Hle) as (s' & inv & Hloop & Hm & Hst).
      eexists. exists inv. split; [|split; [|split]]; eauto.
      * cbn [step]. rewrite Hn, Hph, Hloop. reflexivity.
      * cbn [effectRuns]. eapply nth_error_replace; eauto.
  - destruct Hle as (_ & _ & L3 & _). split.
    + intros cam now. eapply step_timer_awaiting; eauto.
    + intros r now s' o Hr. eexists.
      split; [eapply step_loop_returned; eauto|]. cbn [ui effectRuns].
      split; [reflexivity|]. split; [eapply nth_error_replace; eauto|].
      intros Ha. apply afterAwait_active; auto.
Qed.

Lemma next_cycle_armed_when_call_returns_witness :
  reachable phone (after phone firstSubmission)
  /\ (exists e, nth_error (effectRuns (after phone firstSubmission)) 0 = Some e)
  /\ forall cameraRef now,
       step phone (after phone firstSubmission) (TimerFires 0 cameraRef now)
       = None.
Proof.
  pose proof (after_reachable phone firstSubmission) as Hreach.
  split; [exact Hreach|]. split; [eexists; reflexivity|].
  exact (proj1 (proj2
    (next_cycle_armed_when_call_returns phone (after phone firstSubmission)
       0 _ Hreach eq_refl))).
Defined.

(** ** Leaving auto mode *)

(** No segment of [processFrame] reads the current mode: the closure's
    [isAutoScan] is the one of its render. *)
Lemma resume_ignores_mode (dev : Platform) (inv : Invocation) (r : Settlement)
    (now : Z) (s : State) (auto : bool) :
  resume dev inv r now (inMode auto s)
  = match resume dev inv r now s with
    | Some (s', c) => Some (inMode auto s', c)
    | None => None
    end.
Proof.
  unfold resume.
  destruct (stage inv) as [st o|st cv rq|st cv]; destruct r as [rc|rf|rj rnd];
    try reflexivity.
  - unfold afterCapture, throw, finally_block, catch_block.
    branches; reflexivity.
  - unfold afterFetch, throw, finally_block, catch_block.
    branches; reflexivity.
  - unfold afterJson, finish, throw, finally_block, catch_block.
    branches; reflexivity.
Qed.

Lemma step_toggle_keeps_calls (dev : Platform) (w w' : World)
    (cameraRef : bool) (now : Z) (i : nat) :
  step dev w (Toggle cameraRef now) = Some w' ->
  pending w' (OfLoop (S i)) = pending w (OfLoop i)
  /\ manualScans w' = manualScans w.
Proof.
  cbn [step]. destruct (effect cameraRef now _) as [s e].
  intros H; inversion H; subst; clear H. cbn [manualScans]. split; [|reflexivity].
  unfold pending. cbn [effectRuns nth_error].
  destruct (effectRuns w) as [|e0 old]; [destruct i; reflexivity|].
  destruct i; reflexivity.
Qed.

(** In manual mode every effect run but the newest is inactive, and the
    newest has no loop. *)
Lemma manual_mode_loops (dev : Platform) (w : World) (i : nat) (e : EffectRun) :
  reachable dev w -> isAutoScan (ui w) = false ->
  nth_error (effectRuns w) i = Some e ->
  phase e = Idle \/ isActive e = false.
Proof.
  intros Hw Hmode Hn.
  destruct (Invariant_reachable dev w Hw) as [Ho Hl _].
  destruct (effectRuns w) as [|e0 old]; [destruct Ho|].
  destruct Ho as (_ & Hseen & Hold). destruct i; cbn in Hn.
  - inversion Hn; subst. inversion Hl as [|? ? Hc _]; subst.
    unfold loopCall in Hc. rewrite Hmode in Hseen.
    destruct (phase e) as [|d|d inv]; auto.
    + rewrite Hseen in Hc. discriminate.
    + destruct Hc as (_ & _ & Hc & _). rewrite Hseen in Hc. discriminate.
  - right. eapply (Forall_nth_error inactive); eauto.
Qed.

(** C8, as stated, fails: the response of a request sent in auto mode
    arrives after the switch to manual mode, which had cleared the box, and
    sets [result] and [activeBox]. *)
Lemma late_completion_sets_overlay :
  isAutoScan (ui (after phone switchedBack)) = false
  /\ result (ui (after phone switchedBack)) = None
  /\ activeBox (ui (after phone switchedBack)) = None
  /\ isAutoScan (ui (after phone lateCompletion)) = false
  /\ result (ui (after phone lateCompletion)) = Some deer
  /\ activeBox (ui (after phone lateCompletion)) = Some deerBox.
Proof. repeat split; reflexivity. Qed.

(** C8, amended.  In manual mode no loop starts a new call of
    [processFrame]: every effect run that has a loop is inactive, a timer
    that fires only sets [scanning] to false and stops its loop, and a call
    that returns arms no timer.  The switch does not cancel the calls that
    are out, and they run on.  A call that was still waiting for its photo
    at the switch sends its request to the streaming endpoint when the
    photo arrives, in manual mode.  A call that settles after the switch is
    applied as it would have been in auto mode: no segment reads the
    current mode. *)
Theorem manual_mode_stops_loop_not_completions :
  forall (dev : Platform) (w : World) (i : nat) (e : EffectRun),
    reachable dev w ->
    isAutoScan (ui w) = false ->
    nth_error (effectRuns w) i = Some e ->
    (phase e = Idle \/ isActive e = false)
    /\ (forall cameraRef now w',
          step dev w (TimerFires i cameraRef now) = Some w' ->
          ui w' = setScanning false (ui w)
          /\ nth_error (effectRuns w') i = Some (setPhase Idle e)
          /\ manualScans w' = manualScans w)
    /\ (forall delay inv r now s' c,
          phase e = Awaiting delay inv ->
          resume dev inv r now (ui w) = Some (s', c) ->
          resume dev inv r now (inMode true (ui w)) = Some (inMode true s', c)
          /\ exists w',
               step dev w (Settles (OfLoop i) r now) = Some w'
               /\ ui w' = s'
               /\ (forall o, c = Returned o ->
                     exists e',
                       nth_error (effectRuns w') i = Some e'
                       /\ phase e' = Idle))
    /\ (forall cameraRef now w0,
          step dev w0 (Toggle cameraRef now) = Some w ->
          forall j,
            pending w (OfLoop (S j)) = pending w0 (OfLoop j)
            /\ manualScans w = manualScans w0)
    /\ (forall delay inv startTime options photo now,
          phase e = Awaiting delay inv ->
          stage inv = AwaitCapture startTime options ->
          loopInFlight e = 0%nat
          /\ endpoint (formRequest (closure inv)) = STREAM_ENDPOINT
          /\ exists w' e',
               step dev w
                 (Settles (OfLoop i) (CaptureSettled (Captured photo)) now)
               = Some w'
               /\ ui w' = ui w
               /\ nth_error (effectRuns w') i = Some e'
               /\ phase e'
                  = Awaiting delay
                      (suspend inv
                         (AwaitFetch startTime (cover dev photo)
                            (formRequest (closure inv))))
               /\ loopInFlight e' = 1%nat).
Proof.
  intros dev w i e Hw Hmode Hn.
  pose proof (manual_mode_loops dev w i e Hw Hmode Hn) as Hoff.
  split; [exact Hoff|]. split; [|split; [|split]].
  - intros cam now w' Hs. cbn [step] in Hs. rewrite Hn in Hs.
    destruct (phase e) as [|d|d inv] eqn:Hph; try discriminate.
    destruct Hoff as [Hidle|Ha]; [discriminate|].
    unfold loop in Hs. rewrite Ha in Hs. cbn [negb orb] in Hs.
    inversion Hs; subst; clear Hs. cbn [ui effectRuns manualScans].
    repeat split. eapply nth_error_replace; eauto.
  - intros delay inv r now s' c Hph Hr.
    split; [rewrite resume_ignores_mode, Hr; reflexivity|].
    destruct Hoff as [Hidle|Ha]; [rewrite Hidle in Hph; discriminate|].
    destruct c as [inv'|o].
    + eexists. split; [cbn [step]; rewrite Hn, Hph, Hr; reflexivity|].
      cbn [ui]. split; [reflexivity|]. intros o Ho. discriminate.
    + eexists. split; [eapply step_loop_returned; eauto|].
      cbn [ui effectRuns]. split; [reflexivity|]. intros o' _.
      eexists. split; [eapply nth_error_replace; eauto|].
      apply afterAwait_inactive. exact Ha.
  - intros cam now w0 Hs j. eapply step_toggle_keeps_calls; eauto.
  - intros delay inv startTime options photo now Hph Hst.
    destruct (Invariant_reachable dev w Hw) as [_ Hl _].
    pose proof (Forall_nth_error _ _ _ _ Hl Hn) as Hle.
    unfold loopCall in Hle. rewrite Hph in Hle.
    destruct Hle as (_ & Hcl & Hauto & _).
    split; [unfold loopInFlight, inFlight; rewrite Hph, Hst; reflexivity|].
    split; [unfold formRequest; rewrite Hcl, Hauto; reflexivity|].
    eexists. eexists.
    split; [cbn [step]; rewrite Hn, Hph; unfold resume; rewrite Hst;
            cbn [afterCapture]; reflexivity|].
    cbn [ui effectRuns].
    split; [reflexivity|].
    split; [eapply nth_error_replace; eauto|].
    split; reflexivity.
Qed.

Lemma manual_mode_stops_loop_not_completions_witness :
  reachable phone (after phone switchedBack)
  /\ isAutoScan (ui (after phone switchedBack)) = false
  /\ (exists e, nth_error (effectRuns (after phone switchedBack)) 1 = Some e)
  /\ exists w',
       step phone (after phone switchedBack)
         (Settles (OfLoop 1) (JsonSettled (Json (found deer)) 0) 201) = Some w'
       /\ activeBox (ui w') = Some deerBox
       /\ (exists e', nth_error (effectRuns w') 1 = Some e' /\ phase e' = Idle)
       /\ reachable phone (after phone switchedBackEarly)
       /\ isAutoScan (ui (after phone switchedBackEarly)) = false
       /\ exists w'' e'',
            step phone (after phone switchedBackEarly)
              (Settles (OfLoop 1) (CaptureSettled (Captured vga)) 30)
            = Some w''
            /\ isAutoScan (ui w'') = false
            /\ nth_error (effectRuns w'') 1 = Some e''
            /\ loopInFlight e'' = 1%nat.
Proof.
  pose proof (after_reachable phone switchedBack) as Hreach.
  split; [exact Hreach|]. split; [reflexivity|]. split; [eexists; reflexivity|].
  destruct (manual_mode_stops_loop_not_completions phone
              (after phone switchedBack) 1 _ Hreach eq_refl eq_refl)
    as (_ & _ & Hlate & _).
  destruct (Hlate _ _ (JsonSettled (Json (found deer)) 0) 201 _ _
              eq_refl eq_refl) as (_ & w' & Hstep & Hui & Hstop).
  exists w'. split; [exact Hstep|]. split; [rewrite Hui; reflexivity|].
  split; [exact (Hstop _ eq_refl)|].
  pose proof (after_reachable phone switchedBackEarly) as Hearly.
  split; [exact Hearly|]. split; [reflexivity|].
  destruct (manual_mode_stops_loop_not_completions phone
              (after phone switchedBackEarly) 1 _ Hearly eq_refl eq_refl)
    as (_ & _ & _ & _ & Hcapture).
  destruct (Hcapture _ _ _ _ vga 30 eq_refl eq_refl)
    as (_ & _ & w'' & e'' & Hstep' & Hui' & Hn' & _ & Hout).
  exists w'', e''. split; [exact Hstep'|].
  split; [rewrite Hui'; reflexivity|]. split; assumption.
Defined.

(** ** Order of binary64 numbers *)

Lemma SFcompare_antisym (x y : spec_float) (c : comparison) :
  SFcompare x y = Some c -> SFcompare y x = Some (CompOpp c).
Proof.
  destruct x as [sx|sx| |sx mx ex], y as [sy|sy| |sy my ey]; cbn;
    try discriminate; intros H; inversion H; subst; clear H;
    try (destruct sx; reflexivity); try (destruct sy; reflexivity);
    try (destruct sx, sy; reflexivity).
  destruct sx, sy; try reflexivity;
    rewrite (Z.compare_antisym ex ey);
    destruct (Z.compare ex ey); cbn; try reflexivity;
    rewrite (Pos.compare_cont_antisym _ _ Eq); cbn;
    destruct (Pos.compare_cont Eq mx my); reflexivity.
Qed.

Lemma SFcompare_refl (x : spec_float) :
  x <> S754_nan -> SFcompare x x = Some Eq.
Proof.
  destruct x as [sg|sg| |sg m e]; cbn; intros H; try (destruct sg; reflexivity).
  - now destruct H.
  - destruct sg; rewrite Z.compare_refl, Pos.compare_cont_refl; reflexivity.
Qed.

Lemma SFcompare_total (x y : spec_float) :
  x <> S754_nan -> y <> S754_nan -> exists c, SFcompare x y = Some c.
Proof.
  destruct x as [sx|sx| |sx mx ex], y as [sy|sy| |sy my ey]; cbn; intros Hx Hy;
    try (now destruct Hx); try (now destruct Hy); eauto.
Qed.

Lemma isNumber_spec (a : float) : isNumber a -> Prim2SF a <> S754_nan.
Proof.
  unfold isNumber, PrimFloat.is_nan. rewrite FloatAxioms.eqb_spec. intros H E.
  rewrite E in H. discriminate.
Qed.

Lemma leb_refl (a : float) : isNumber a -> (a <=? a)%float = true.
Proof.
  intros H. rewrite FloatAxioms.leb_spec. unfold SFleb.
  rewrite SFcompare_refl; [reflexivity|]. now apply isNumber_spec.
Qed.

Lemma ltb_leb (a b : float) : (a <? b)%float = true -> (a <=? b)%float = true.
Proof.
  rewrite FloatAxioms.ltb_spec, FloatAxioms.leb_spec. unfold SFltb, SFleb.
  destruct (SFcompare (Prim2SF a) (Prim2SF b)) as [[| |]|]; congruence.
Qed.

Lemma not_ltb_leb (a b : float) :
  isNumber a -> isNumber b -> (a <? b)%float = false -> (b <=? a)%float = true.
Proof.
  intros Ha Hb. rewrite FloatAxioms.ltb_spec, FloatAxioms.leb_spec.
  unfold SFltb, SFleb.
  destruct (SFcompare_total _ _ (isNumber_spec a Ha) (isNumber_spec b Hb))
    as [c Hc].
  rewrite Hc, (SFcompare_antisym _ _ _ Hc). destruct c; cbn; congruence.
Qed.

Lemma Math_max_ge (a b : float) :
  isNumber a -> isNumber b ->
  (a <=? JS.Math_max a b)%float = true /\ (b <=? JS.Math_max a b)%float = true
  /\ (JS.Math_max a b = a \/ JS.Math_max a b = b).
Proof.
  intros Ha Hb. unfold JS.Math_max. rewrite Ha, Hb. cbn [orb].
  destruct (a <? b)%float eqn:Hab.
  - repeat split; auto using ltb_leb, leb_refl.
  - destruct (b <? a)%float eqn:Hba.
    + repeat split; auto using ltb_leb, leb_refl.
    + destruct (PrimFloat.get_sign a); repeat split;
        auto using leb_refl, not_ltb_leb.
Qed.

Lemma Math_min_le (a b : float) :
  isNumber a -> isNumber b ->
  (Math_min a b <=? a)%float = true /\ (Math_min a b <=? b)%float = true
  /\ (Math_min a b = a \/ Math_min a b = b).
Proof.
  intros Ha Hb. unfold Math_min. rewrite Ha, Hb. cbn [orb].
  destruct (a <? b)%float eqn:Hab.
  - repeat split; auto using ltb_leb, leb_refl.
  - destruct (b <? a)%float eqn:Hba.
    + repeat split; auto using ltb_leb, leb_refl.
    + destruct (PrimFloat.get_sign a); repeat split;
        auto using leb_refl, not_ltb_leb.
Qed.

Lemma ltb_asym (a b : float) : (a <? b)%float = true -> (b <? a)%float = false.
Proof.
  rewrite !FloatAxioms.ltb_spec. unfold SFltb.
  destruct (SFcompare (Prim2SF a) (Prim2SF b)) as [c|] eqn:Hc; [|discriminate].
  rewrite (SFcompare_antisym _ _ _ Hc). destruct c; cbn; congruence.
Qed.

Lemma leb_not_ltb (a b : float) :
  (a <=? b)%float = true -> (b <? a)%float = false.
Proof.
  rewrite FloatAxioms.ltb_spec, FloatAxioms.leb_spec. unfold SFltb, SFleb.
  destruct (SFcompare (Prim2SF a) (Prim2SF b)) as [c|] eqn:Hc; [|discriminate].
  rewrite (SFcompare_antisym _ _ _ Hc). destruct c; cbn; congruence.
Qed.

Lemma compared_numbers (x y : spec_float) (c : comparison) :
  SFcompare x y = Some c -> x <> S754_nan /\ y <> S754_nan.
Proof.
  destruct x, y; cbn; intros H; try discriminate; split; discriminate.
Qed.

Lemma spec_isNumber (a : float) : Prim2SF a <> S754_nan -> isNumber a.
Proof.
  intros H. unfold isNumber, PrimFloat.is_nan. rewrite FloatAxioms.eqb_spec.
  unfold SFeqb. rewrite SFcompare_refl; auto.
Qed.

Lemma leb_numbers (a b : float) :
  (a <=? b)%float = true -> isNumber a /\ isNumber b.
Proof.
  rewrite FloatAxioms.leb_spec. unfold SFleb.
  destruct (SFcompare (Prim2SF a) (Prim2SF b)) as [c|] eqn:Hc; [|discriminate].
  intros _. destruct (compared_numbers _ _ _ Hc).
  split; apply spec_isNumber; assumption.
Qed.

Lemma ltb_numbers (a b : float) :
  (a <? b)%float = true -> isNumber a /\ isNumber b.
Proof. intros H. apply leb_numbers. now apply ltb_leb. Qed.

Lemma SFcompare_Eq_finite (sg : bool) (m : BinNums.positive) (e : Z) (y : spec_float) :
  SFcompare (S754_finite sg m e) y = Some Eq -> y = S754_finite sg m e.
Proof.
  destruct y as [sy|sy| |sy my ey]; cbn; intros H; try discriminate.
  - destruct sg; discriminate.
  - destruct sy, sg; discriminate.
  - destruct sg, sy; try discriminate; inversion H as [H1]; clear H;
      destruct (Z.compare e ey) eqn:He; try discriminate;
      apply Z.compare_eq in He; subst ey;
      destruct (Pos.compare_cont Eq m my) eqn:Hm; try discriminate;
      apply Pos.compare_eq in Hm; subst my; reflexivity.
Qed.

Lemma Prim2SF_one : Prim2SF 1 = S754_finite false 4503599627370496 (-52).
Proof. reflexivity. Qed.

(** A number that is neither above nor below 1 is 1. *)
Lemma neither_side_of_one (x : float) :
  (1 <=? x)%float = true -> (1 <? x)%float = false -> x = 1%float.
Proof.
  rewrite FloatAxioms.ltb_spec, FloatAxioms.leb_spec. unfold SFltb, SFleb.
  intros Hle Hlt. apply Prim2SF_inj.
  destruct (SFcompare (Prim2SF 1) (Prim2SF x)) as [[| |]|] eqn:Hc;
    try discriminate.
  rewrite Prim2SF_one in *. now apply SFcompare_Eq_finite.
Qed.

(** Where a number that is at most 0 stands with respect to 0 and 1. *)
Lemma at_most_zero (x : float) :
  (x <=? 0)%float = true ->
  (1 <? x)%float = false /\ (x <? 1)%float = true /\ (0 <? x)%float = false.
Proof.
  intros H. split; [|split].
  - revert H. rewrite FloatAxioms.ltb_spec, FloatAxioms.leb_spec, Prim2SF_one.
    change (Prim2SF 0) with (S754_zero false).
    destruct (Prim2SF x) as [sg|sg| |sg m e]; try destruct sg;
      cbn [SFltb SFleb SFcompare]; congruence.
  - revert H. rewrite FloatAxioms.ltb_spec, FloatAxioms.leb_spec, Prim2SF_one.
    change (Prim2SF 0) with (S754_zero false).
    destruct (Prim2SF x) as [sg|sg| |sg m e]; try destruct sg;
      cbn [SFltb SFleb SFcompare]; congruence.
  - now apply leb_not_ltb.
Qed.

(** X1. [handleZoom] clamps: the new zoom is 0 when [prev + increment] is
    at most 0, 1 when it is at least 1, the sum itself when it lies
    strictly between, and NaN only when the sum is NaN; so from a sum that
    is a number the zoom always lands in [0, 1]. *)
Theorem handleZoom_clamps_to_unit_interval :
  forall (increment prev : float),
    (PrimFloat.is_nan (prev + increment) = true ->
     handleZoom increment prev = nan)
    /\ ((prev + increment <=? 0)%float = true ->
        handleZoom increment prev = 0%float)
    /\ ((0 <? prev + increment)%float = true ->
        (prev + increment <? 1)%float = true ->
        handleZoom increment prev = (prev + increment)%float)
    /\ ((1 <=? prev + increment)%float = true ->
        handleZoom increment prev = 1%float)
    /\ (isNumber (prev + increment) ->
        (0 <=? handleZoom increment prev)%float = true
        /\ (handleZoom increment prev <=? 1)%float = true).
Proof.
  intros increment prev. unfold handleZoom.
  generalize (prev + increment)%float. intros x.
  split; [|split; [|split; [|split]]].
  - intros Hn. unfold Math_min. rewrite Hn, orb_true_r. reflexivity.
  - intros H. destruct (leb_numbers _ _ H) as [Hx _].
    destruct (at_most_zero x H) as (H1 & H2 & H3).
    unfold Math_min. change (PrimFloat.is_nan 1) with false.
    rewrite Hx, H1, H2. cbn [orb].
    unfold JS.Math_max. change (PrimFloat.is_nan 0) with false.
    rewrite Hx, H3. cbn [orb].
    destruct (x <? 0)%float; reflexivity.
  - intros H0 H1. destruct (ltb_numbers _ _ H0) as [_ Hx].
    unfold Math_min. change (PrimFloat.is_nan 1) with false.
    rewrite Hx, (ltb_asym _ _ H1), H1. cbn [orb].
    unfold JS.Math_max. change (PrimFloat.is_nan 0) with false.
    rewrite Hx, H0. reflexivity.
  - intros H. destruct (leb_numbers _ _ H) as [_ Hx].
    assert (Hmin : Math_min 1 x = 1%float).
    { unfold Math_min. change (PrimFloat.is_nan 1) with false.
      rewrite Hx. cbn [orb].
      destruct (1 <? x)%float eqn:H1; [reflexivity|].
      rewrite (leb_not_ltb _ _ H).
      change (PrimFloat.get_sign 1) with false.
      apply neither_side_of_one; assumption. }
    rewrite Hmin. reflexivity.
  - intros Hx.
    assert (H1 : isNumber 1) by reflexivity.
    assert (H0 : isNumber 0) by reflexivity.
    destruct (Math_min_le 1 x H1 Hx) as (M1 & M2 & M3).
    assert (Hm : isNumber (Math_min 1 x))
      by (destruct M3 as [E|E]; rewrite E; assumption).
    destruct (Math_max_ge 0 _ H0 Hm) as (X1 & X2 & X3).
    split; [exact X1|]. destruct X3 as [E|E]; rewrite E; [reflexivity|exact M1].
Qed.

(** ** Geometry and display *)

Lemma abs_not_negative (x : float) : (PrimFloat.abs x <? 0)%float = false.
Proof.
  rewrite FloatAxioms.ltb_spec, FloatAxioms.abs_spec.
  change (Prim2SF 0) with (S754_zero false).
  destruct (Prim2SF x) as [sg|sg| |sg m e]; reflexivity.
Qed.

(** X2. [BoundingBox] lays out nothing for a null box, and for any box,
    even one whose corners are swapped or missing, a rectangle whose left
    and top are the first two entries of the array (undefined where the
    array has none), whose width and height are the absolute differences
    of the entries, a missing one counting as NaN, and are never
    negative. *)
Theorem BoundingBox_extent_not_negative :
  forall (bbox : option (list float)),
    match BoundingBox bbox with
    | None => bbox = None
    | Some layout =>
        exists b,
          bbox = Some b
          /\ boxLeft layout = nth_error b 0 /\ boxTop layout = nth_error b 1
          /\ boxWidth layout = PrimFloat.abs (nth 2 b nan - nth 0 b nan)
          /\ boxHeight layout = PrimFloat.abs (nth 3 b nan - nth 1 b nan)
          /\ (boxWidth layout <? 0)%float = false
          /\ (boxHeight layout <? 0)%float = false
    end.
Proof.
  intros [b|]; [|reflexivity].
  unfold BoundingBox. cbv zeta. exists b.
  cbn [boxLeft boxTop boxWidth boxHeight].
  assert (Hn : forall i, match nth_error b i with Some x => x | None => nan end
                         = nth i b nan).
  { intros i. revert b. induction i as [|i IH]; intros [|x b]; cbn; auto. }
  rewrite !Hn.
  split; [reflexivity|]. split; [reflexivity|]. split; [reflexivity|].
  split; [reflexivity|]. split; [reflexivity|].
  split; apply abs_not_negative.
Qed.

(** X3. Aspect fill never under-covers: when the two ratios of window to
    frame are numbers, the scale is one of them and is at least each of
    them. *)
Theorem cover_scale_at_least_both_ratios :
  forall (dev : Platform) (photo : Photo),
    isNumber (SCREEN_WIDTH dev / width photo) ->
    isNumber (SCREEN_HEIGHT dev / height photo) ->
    (SCREEN_WIDTH dev / width photo <=? scale (cover dev photo))%float = true
    /\ (SCREEN_HEIGHT dev / height photo <=? scale (cover dev photo))%float
       = true
    /\ (scale (cover dev photo) = (SCREEN_WIDTH dev / width photo)%float
        \/ scale (cover dev photo) = (SCREEN_HEIGHT dev / height photo)%float).
Proof.
  intros dev photo Hw Hh. unfold cover; cbn [scale].
  apply Math_max_ge; assumption.
Qed.

Lemma cover_scale_at_least_both_ratios_witness :
  isNumber (SCREEN_WIDTH phone / width vga)
  /\ isNumber (SCREEN_HEIGHT phone / height vga)
  /\ (SCREEN_WIDTH phone / width vga <=? scale (cover phone vga))%float = true
  /\ (SCREEN_HEIGHT phone / height vga <=? scale (cover phone vga))%float = true.
Proof.
  assert (Hw : isNumber (SCREEN_WIDTH phone / width vga)) by reflexivity.
  assert (Hh : isNumber (SCREEN_HEIGHT phone / height vga)) by reflexivity.
  destruct (cover_scale_at_least_both_ratios phone vga Hw Hh) as (H1 & H2 & _).
  split; [exact Hw|]. split; [exact Hh|]. split; [exact H1|exact H2].
Defined.

Lemma mul_nan_l (x : float) : (nan * x)%float = nan.
Proof.
  apply Prim2SF_inj. rewrite FloatAxioms.mul_spec.
  change (Prim2SF nan) with S754_nan. reflexivity.
Qed.

Lemma add_nan_l (x : float) : (nan + x)%float = nan.
Proof.
  apply Prim2SF_inj. rewrite FloatAxioms.add_spec.
  change (Prim2SF nan) with S754_nan. reflexivity.
Qed.

(** X4. The scaled box always has four coordinates: a bounding box with
    fewer than four numbers gives NaN for each missing one, and numbers
    after the fourth are ignored. *)
Theorem scaledBox_short_and_long_bbox :
  forall (c : Cover) (b : list float),
    List.length (scaledBox c b) = 4%nat
    /\ (forall i,
          (List.length b <= i)%nat -> (i < 4)%nat ->
          nth i (scaledBox c b) 0%float = nan)
    /\ (forall extra,
          (4 <= List.length b)%nat -> scaledBox c (b ++ extra) = scaledBox c b).
Proof.
  intros c b. split; [reflexivity|]. split.
  - intros i Hlen Hi. unfold scaledBox.
    destruct i as [|[|[|[|i]]]]; [| | | |lia]; cbn [nth];
      rewrite (nth_overflow b nan Hlen), mul_nan_l, add_nan_l; reflexivity.
  - intros extra Hlen. unfold scaledBox.
    rewrite !(app_nth1 b extra nan) by lia. reflexivity.
Qed.

Lemma dataStreamFrom_opacity (entries : list string) :
  (List.length entries <= 6)%nat ->
  Forall (fun line => (0.25 <=? snd line)%float = true)
         (dataStreamFrom 0 entries).
Proof.
  intros H.
  destruct entries as [|a [|b [|c [|d [|e [|f [|g rest]]]]]]];
    cbn in H; try lia; cbn [dataStreamFrom];
    repeat (constructor; [reflexivity|]); constructor.
Qed.

(** X5. Every line of the data stream is visible: in every reachable state
    each displayed log line has opacity at least 0.25, because the log
    holds at most 6 lines and the opacity drops by 0.15 per line. *)
Theorem data_stream_lines_stay_visible :
  forall (dev : Platform) (w : World),
    reachable dev w ->
    List.length (DataStream (ui w)) = List.length (logs (ui w))
    /\ Forall (fun line => (0.25 <=? snd line)%float = true)
              (DataStream (ui w)).
Proof.
  intros dev w Hw. split.
  - unfold DataStream. generalize 0. induction (logs (ui w)) as [|x l IH];
      intros i; cbn; [reflexivity|]. now rewrite IH.
  - apply dataStreamFrom_opacity. exact (logsBounded_reachable dev w Hw).
Qed.

Lemma data_stream_lines_stay_visible_witness :
  reachable phone (after phone threeToggles)
  /\ List.length (DataStream (ui (after phone threeToggles))) = 6%nat
  /\ Forall (fun line => (0.25 <=? snd line)%float = true)
            (DataStream (ui (after phone threeToggles))).
Proof.
  pose proof (after_reachable phone threeToggles) as Hreach.
  split; [exact Hreach|]. split; [reflexivity|].
  exact (proj2 (data_stream_lines_stay_visible phone _ Hreach)).
Defined.

(** *** Strings are counted in UTF-16 code units *)

Lemma lengthFrom_takeFrom (s : string) :
  forall n skip : nat, (JS.lengthFrom skip (JS.takeFrom n skip s) <= n)%nat.
Proof.
  induction s as [|c s IH]; intros n skip; cbn [JS.takeFrom];
    [cbn; lia|].
  destruct skip as [|k].
  - destruct (Nat.leb_spec (JS.charUnits c) n) as [Hle|Hgt].
    + cbn [JS.lengthFrom].
      specialize (IH (n - JS.charUnits c)%nat (JS.charBytes c - 1)%nat). lia.
    + destruct n as [|n]; [cbn; lia|].
      unfold JS.highSurrogate. cbv zeta. cbn [JS.lengthFrom].
      change (JS.charUnits (ascii_of_nat 237)) with 1%nat.
      change (JS.charBytes (ascii_of_nat 237)) with 3%nat.
      cbn [Nat.sub JS.lengthFrom]. lia.
  - cbn [JS.lengthFrom]. apply IH.
Qed.

Lemma takeFrom_all (s : string) :
  forall n skip : nat,
    (JS.lengthFrom skip s <= n)%nat -> JS.takeFrom n skip s = s.
Proof.
  induction s as [|c s IH]; intros n skip H; cbn [JS.takeFrom JS.lengthFrom] in *;
    [reflexivity|].
  destruct skip as [|k].
  - destruct (Nat.leb_spec (JS.charUnits c) n) as [Hle|Hgt]; [|lia].
    f_equal. apply IH. lia.
  - f_equal. apply IH. exact H.
Qed.

Lemma substring0_length (n : nat) (s : string) :
  (JS.length (JS.substring0 n s) <= n)%nat.
Proof. apply lengthFrom_takeFrom. Qed.

Lemma substring0_short (n : nat) (s : string) :
  (JS.length s <= n)%nat -> JS.substring0 n s = s.
Proof. apply takeFrom_all. Qed.

Lemma error_entry_length (s : string) :
  JS.length ("ERROR: " ++ s) = (7 + JS.length s)%nat.
Proof. reflexivity. Qed.

(** An accented letter is two bytes and one code unit; a character above
    U+FFFF is four bytes and two code units, and cut in the middle it leaves
    its high surrogate (0xD83D for U+1F600). *)
Lemma substring0_counts_code_units :
  JS.length "Connexion réseau échouée" = 24%nat
  /\ JS.substring0 20 "Connexion réseau échouée" = "Connexion réseau éch"
  /\ JS.length "😀" = 2%nat
  /\ JS.substring0 1 "😀"
     = String (ascii_of_nat 237)
         (String (ascii_of_nat 160) (String (ascii_of_nat 189) EmptyString))
  /\ JS.substring0 20 "Network request failed" = "Network request fail".
Proof. repeat split; vm_compute; reflexivity. Qed.

(** X6. The log entry of a failure is "ERROR: " followed by the first 20
    characters (UTF-16 code units, as [substring] counts them) of the
    reason, so it is never longer than 27 characters; a reason of at most
    20 characters is shown whole. *)
Theorem error_entry_at_most_27_characters :
  forall (inv : Invocation) (message : string) (s : State),
    exists entry older,
      logs (fst (throw inv message s)) = entry :: older
      /\ entry = "ERROR: " ++ JS.substring0 20 message
      /\ (JS.length entry <= 27)%nat
      /\ ((JS.length message <= 20)%nat -> entry = "ERROR: " ++ message).
Proof.
  intros inv message s.
  destruct (throw_state inv message s) as (_ & Hlogs & _).
  cbv zeta in Hlogs. rewrite Hlogs. unfold pushLog. cbn [firstn].
  eexists. eexists. split; [reflexivity|]. split; [reflexivity|]. split.
  - rewrite error_entry_length. pose proof (substring0_length 20 message). lia.
  - intros H. now rewrite substring0_short.
Qed.

(** ** The counter and the mode along a run *)

Ltac same_or_next :=
  branches; first [left; reflexivity | right; reflexivity].

Lemma resume_counter (dev : Platform) (inv : Invocation) (r : Settlement)
    (now : Z) (s s' : State) (c : Control) :
  resume dev inv r now s = Some (s', c) ->
  frameCounter s' = frameCounter s \/ frameCounter s' = frameCounter s + 1.
Proof.
  intros Hr. unfold resume in Hr.
  destruct (stage inv) as [st o|st cv rq|st cv]; destruct r as [rc|rf|rj rnd];
    try discriminate; inversion Hr as [Heq]; clear Hr;
    apply (f_equal fst) in Heq; cbn [fst] in Heq; subst s'.
  - unfold afterCapture, throw, finally_block, catch_block. same_or_next.
  - unfold afterFetch, throw, finally_block, catch_block. same_or_next.
  - unfold afterJson, finish, throw, finally_block, catch_block. same_or_next.
Qed.

Lemma loop_counter (cameraRef : bool) (now : Z) (e e' : EffectRun) (s s' : State) :
  loop cameraRef now e s = (s', e') -> frameCounter s' = frameCounter s.
Proof.
  unfold loop, processFrame. intros H.
  split_hyp H; inversion H; subst; reflexivity.
Qed.

Lemma step_counter (dev : Platform) (w w' : World) (ev : Event) :
  step dev w ev = Some w' ->
  frameCounter (ui w') = frameCounter (ui w)
  \/ frameCounter (ui w') = frameCounter (ui w) + 1.
Proof.
  intros Hs. destruct ev as [cam now|cam now|i cam now|[i|i] r now];
    cbn [step] in Hs.
  - left. unfold effect in Hs.
    destruct (isAutoScan (setIsAutoScan negb (ui w))).
    + destruct (loop cam now _ (setIsAutoScan negb (ui w))) as [s1 e1] eqn:Hl.
      inversion Hs; subst. cbn. now rewrite (loop_counter _ _ _ _ _ _ Hl).
    + inversion Hs; subst. reflexivity.
  - left. unfold processFrame in Hs.
    split_hyp Hs; try discriminate; inversion Hs; subst; reflexivity.
  - left. destruct (nth_error (effectRuns w) i) as [e|]; [|discriminate].
    destruct (phase e); try discriminate.
    destruct (loop cam now e (ui w)) as [s e'] eqn:Hl.
    inversion Hs; subst. cbn. exact (loop_counter _ _ _ _ _ _ Hl).
  - destruct (nth_error (effectRuns w) i) as [e|]; [|discriminate].
    destruct (phase e) as [|d|d inv]; try discriminate.
    destruct (resume dev inv r now (ui w)) as [[s c]|] eqn:Hr; [|discriminate].
    assert (Hui : ui w' = s) by (destruct c; inversion Hs; reflexivity).
    rewrite Hui. exact (resume_counter _ _ _ _ _ _ _ Hr).
  - destruct (nth_error (manualScans w) i) as [inv|]; [|discriminate].
    destruct (resume dev inv r now (ui w)) as [[s c]|] eqn:Hr; [|discriminate].
    assert (Hui : ui w' = s) by (destruct c; inversion Hs; reflexivity).
    rewrite Hui. exact (resume_counter _ _ _ _ _ _ _ Hr).
Qed.

(** X7. The frame counter never goes down and is never reset, not even by
    a mode switch: along any run it grows by at most one per event, and
    from the mounted screen it is never negative. *)
Theorem frameCounter_never_decreases :
  forall (dev : Platform) (evs : list Event) (w w' : World),
    run dev w evs = Some w' ->
    frameCounter (ui w) <= frameCounter (ui w')
    /\ frameCounter (ui w') <= frameCounter (ui w) + Z.of_nat (List.length evs)
    /\ (w = mounted -> 0 <= frameCounter (ui w')).
Proof.
  intros dev evs. induction evs as [|ev evs IH]; intros w w' Hrun.
  - cbn in Hrun. inversion Hrun; subst. cbn [List.length].
    repeat split; try lia. intros ->. cbn. lia.
  - cbn [run] in Hrun.
    destruct (step dev w ev) as [w1|] eqn:Hs; [|discriminate].
    destruct (IH _ _ Hrun) as (H1 & H2 & _).
    pose proof (step_counter dev w w1 ev Hs) as Hc.
    cbn [List.length]. rewrite Nat2Z.inj_succ.
    repeat split; try lia. intros ->. cbn in Hc. lia.
Qed.

Lemma frameCounter_never_decreases_witness :
  run phone mounted secondSubmission = Some (after phone secondSubmission)
  /\ frameCounter (ui mounted) <= frameCounter (ui (after phone secondSubmission))
  /\ frameCounter (ui (after phone secondSubmission))
     <= frameCounter (ui mounted) + 6.
Proof.
  assert (Hrun : run phone mounted secondSubmission
                 = Some (after phone secondSubmission))
    by (vm_compute; reflexivity).
  destruct (frameCounter_never_decreases phone secondSubmission mounted _ Hrun)
    as (H1 & H2 & _).
  split; [exact Hrun|]. split; [exact H1|exact H2].
Defined.

(** X8. Only the AUTO switch changes the mode: it negates [isAutoScan],
    and no press, timer or settlement touches it. *)
Theorem only_the_switch_changes_mode :
  forall (dev : Platform) (w w' : World) (ev : Event),
    step dev w ev = Some w' ->
    isAutoScan (ui w')
    = match ev with
      | Toggle _ _ => negb (isAutoScan (ui w))
      | _ => isAutoScan (ui w)
      end.
Proof.
  intros dev w w' ev Hs.
  destruct ev as [cam now|cam now|i cam now|[i|i] r now]; cbn [step] in Hs.
  - destruct (effect cam now (setIsAutoScan negb (ui w))) as [s e] eqn:He.
    inversion Hs; subst. cbn [ui].
    destruct (effect_keeps _ _ _ _ _ He) as (_ & _ & _ & H). exact H.
  - destruct (isAutoScan (ui w)) eqn:Hm; [discriminate|].
    destruct (processFrame (render (ui w)) true cam now (ui w))
      as [[s inv]|] eqn:Hp; inversion Hs; subst; cbn [ui]; [|exact Hm].
    destruct (processFrame_call _ _ _ _ _ _ _ Hp) as (_ & _ & _ & H).
    now rewrite H.
  - destruct (nth_error (effectRuns w) i) as [e|]; [|discriminate].
    destruct (phase e); try discriminate.
    destruct (loop cam now e (ui w)) as [s e'] eqn:Hl.
    inversion Hs; subst. cbn [ui].
    destruct (loop_keeps _ _ _ _ _ _ Hl) as (_ & _ & _ & H). exact H.
  - destruct (nth_error (effectRuns w) i) as [e|]; [|discriminate].
    destruct (phase e) as [|d|d inv]; try discriminate.
    destruct (resume dev inv r now (ui w)) as [[s c]|] eqn:Hr; [|discriminate].
    assert (Hui : ui w' = s) by (destruct c; inversion Hs; reflexivity).
    rewrite Hui. exact (resume_mode _ _ _ _ _ _ _ Hr).
  - destruct (nth_error (manualScans w) i) as [inv|]; [|discriminate].
    destruct (resume dev inv r now (ui w)) as [[s c]|] eqn:Hr; [|discriminate].
    assert (Hui : ui w' = s) by (destruct c; inversion Hs; reflexivity).
    rewrite Hui. exact (resume_mode _ _ _ _ _ _ _ Hr).
Qed.

Lemma only_the_switch_changes_mode_witness :
  step phone (after phone switchedBack)
    (Settles (OfLoop 1) (JsonSettled (Json (found deer)) 0) 201)
  = Some (after phone lateCompletion)
  /\ isAutoScan (ui (after phone lateCompletion))
     = isAutoScan (ui (after phone switchedBack)).
Proof.
  assert (Hs : step phone (after phone switchedBack)
                 (Settles (OfLoop 1) (JsonSettled (Json (found deer)) 0) 201)
               = Some (after phone lateCompletion))
    by (vm_compute; reflexivity).
  split; [exact Hs|].
  exact (only_the_switch_changes_mode phone _ _ _ Hs).
Defined.

(** ** The switch and the camera *)

(** X9. Switching from auto to manual always clears the overlay box,
    whatever the state: [activeBox] becomes null and "MANUAL MODE" heads the
    log, while the result, the counter, [scanning], the connectivity flag
    and the calls that are out are left as they are, and no call is made. *)
Theorem switch_to_manual_clears_box :
  forall (dev : Platform) (w : World) (cameraRef : bool) (now : Z),
    isAutoScan (ui w) = true ->
    exists w',
      step dev w (Toggle cameraRef now) = Some w'
      /\ isAutoScan (ui w') = false
      /\ activeBox (ui w') = None
      /\ hd_error (logs (ui w')) = Some "MANUAL MODE"
      /\ result (ui w') = result (ui w)
      /\ frameCounter (ui w') = frameCounter (ui w)
      /\ scanning (ui w') = scanning (ui w)
      /\ isConnected (ui w') = isConnected (ui w)
      /\ pending w' (OfLoop 0) = None
      /\ manualScans w' = manualScans w
      /\ forall i, pending w' (OfLoop (S i)) = pending w (OfLoop i).
Proof.
  intros dev w cam now Hm. eexists. split.
  - cbn [step]. unfold effect. cbn [isAutoScan setIsAutoScan].
    rewrite Hm. cbn [negb]. reflexivity.
  - cbn. rewrite Hm. repeat split.
    intros i. unfold pending. cbn [effectRuns nth_error].
    destruct (effectRuns w) as [|e0 old]; destruct i; reflexivity.
Qed.

Lemma switch_to_manual_clears_box_witness :
  isAutoScan (ui (after phone streamingFound)) = true
  /\ activeBox (ui (after phone streamingFound)) = Some deerBox
  /\ exists w',
       step phone (after phone streamingFound) (Toggle true 400) = Some w'
       /\ activeBox (ui w') = None.
Proof.
  assert (Hm : isAutoScan (ui (after phone streamingFound)) = true)
    by reflexivity.
  split; [exact Hm|]. split; [reflexivity|].
  destruct (switch_to_manual_clears_box phone _ true 400 Hm)
    as (w' & Hs & _ & Hbox & _).
  exists w'. split; [exact Hs|exact Hbox].
Defined.

(** X10. Switching from manual to auto with the camera mounted starts
    exactly one streaming call: the runs of the effect that were there are
    only cleaned up, and the new one is active and awaits a call of
    [processFrame(false)] made by the render in auto mode, which asked the
    camera for a photo with quality 0.5 and scale 0.5.  [scanning] becomes
    true and "AUTO-SCAN ENABLED" heads the log.  The overlay box and the
    result of the manual mode are not cleared. *)
Theorem switch_to_auto_starts_streaming :
  forall (dev : Platform) (w : World) (now : Z),
    isAutoScan (ui w) = false ->
    exists w' e inv delay startTime,
      step dev w (Toggle true now) = Some w'
      /\ isAutoScan (ui w') = true
      /\ scanning (ui w') = true
      /\ hd_error (logs (ui w')) = Some "AUTO-SCAN ENABLED"
      /\ activeBox (ui w') = activeBox (ui w)
      /\ result (ui w') = result (ui w)
      /\ manualScans w' = manualScans w
      /\ effectRuns w' = e :: cleanupNewest (effectRuns w)
      /\ isActive e = true
      /\ seen e = render (setIsAutoScan negb (ui w))
      /\ phase e = Awaiting delay inv
      /\ isManualScan inv = false
      /\ closure inv = seen e
      /\ stage inv
         = AwaitCapture startTime {| quality := 0.5; captureScale := 0.5 |}.
Proof.
  intros dev w now Hm. eexists. eexists. eexists. eexists. eexists. split.
  - cbn [step]. unfold effect. cbn [isAutoScan setIsAutoScan].
    rewrite Hm. cbn [negb]. unfold loop.
    cbn [isActive seen setLastFrameTime seenIsAutoScan render isAutoScan
         setIsAutoScan negb orb lastFrameTime].
    rewrite Hm. cbn [negb orb].
    unfold processFrame.
    cbn [negb seenScanning seenIsAutoScan render isAutoScan setIsAutoScan].
    rewrite Hm. cbn [negb]. rewrite andb_false_r. reflexivity.
  - cbn. rewrite Hm.
    split; [reflexivity|]. split; [reflexivity|]. split; [reflexivity|].
    split; [reflexivity|]. split; [reflexivity|]. split; [reflexivity|].
    split; [reflexivity|]. split; [reflexivity|]. split; [reflexivity|].
    split; [reflexivity|]. split; [reflexivity|]. split; reflexivity.
Qed.

Lemma switch_to_auto_starts_streaming_witness :
  isAutoScan (ui (after phone manualFound)) = false
  /\ exists w',
       step phone (after phone manualFound) (Toggle true 300) = Some w'
       /\ isAutoScan (ui w') = true
       /\ activeBox (ui w') = Some deerBox.
Proof.
  assert (Hm : isAutoScan (ui (after phone manualFound)) = false)
    by reflexivity.
  split; [exact Hm|].
  destruct (switch_to_auto_starts_streaming phone _ 300 Hm)
    as (w' & e & inv & delay & startTime & Hs & Ha & _ & _ & Hbox & _).
  exists w'. split; [exact Hs|]. split; [exact Ha|]. rewrite Hbox. reflexivity.
Defined.

(** X11. While the camera ref is null nothing is captured.  In manual
    mode, whatever the state, a press of the trigger changes nothing.  In a
    reachable state, a cycle of an active loop whose timer fires makes no
    call, leaves the state alone and arms its timer again, so the loop
    polls until the camera is there. *)
Theorem nothing_captured_without_camera :
  forall (dev : Platform),
    (forall (w : World) (now : Z),
        isAutoScan (ui w) = false -> step dev w (Press false now) = Some w)
    /\ (forall (w : World) (i : nat) (e : EffectRun) (delay : float) (now : Z),
          reachable dev w ->
          nth_error (effectRuns w) i = Some e ->
          phase e = TimerPending delay ->
          isActive e = true ->
          exists w' e' delay',
            step dev w (TimerFires i false now) = Some w'
            /\ ui w' = ui w
            /\ manualScans w' = manualScans w
            /\ pending w' (OfLoop i) = None
            /\ nth_error (effectRuns w') i = Some e'
            /\ isActive e' = true
            /\ seen e' = seen e
            /\ phase e' = TimerPending delay').
Proof.
  intros dev. split.
  - intros w now Hm. cbn [step]. rewrite Hm. reflexivity.
  - intros w i e delay now Hw Hn Hph Ha.
    destruct (Invariant_reachable dev w Hw) as [_ Hl _].
    pose proof (Forall_nth_error _ _ _ _ Hl Hn) as Hle.
    unfold loopCall in Hle. rewrite Hph in Hle.
    eexists. eexists. eexists. split.
    + cbn [step]. rewrite Hn, Hph. unfold loop. rewrite Ha, Hle.
      cbn [negb orb processFrame]. reflexivity.
    + cbn [ui manualScans effectRuns pending].
      rewrite (nth_error_replace _ _ _ _ Hn).
      unfold afterAwait. cbn [setLastFrameTime isActive seen].
      rewrite Ha, Hle. cbn [andb setPhase phase isActive seen].
      split; [reflexivity|]. split; [reflexivity|]. split; [reflexivity|].
      split; [reflexivity|]. split; [exact Ha|]. split; reflexivity.
Qed.

Lemma nothing_captured_without_camera_witness :
  isAutoScan (ui (after phone manualFound)) = false
  /\ step phone (after phone manualFound) (Press false 6000)
     = Some (after phone manualFound)
  /\ reachable phone (after phone [Toggle false 0])
  /\ exists w',
       step phone (after phone [Toggle false 0]) (TimerFires 0 false 70)
       = Some w'
       /\ ui w' = ui (after phone [Toggle false 0])
       /\ pending w' (OfLoop 0) = None.
Proof.
  assert (Hm : isAutoScan (ui (after phone manualFound)) = false)
    by reflexivity.
  split; [exact Hm|].
  split; [exact (proj1 (nothing_captured_without_camera phone) _ 6000 Hm)|].
  pose proof (after_reachable phone [Toggle false 0]) as Hreach.
  split; [exact Hreach|].
  destruct (proj2 (nothing_captured_without_camera phone) _ 0%nat _ _ 70 Hreach
              eq_refl eq_refl eq_refl)
    as (w' & e' & delay' & Hs & Hui & _ & Hp & _).
  exists w'. split; [exact Hs|]. split; [exact Hui|exact Hp].
Defined.

(** ** Manual scans one at a time *)

Lemma resume_suspended_scanning (dev : Platform) (inv inv' : Invocation)
    (r : Settlement) (now : Z) (s s' : State) :
  resume dev inv r now s = Some (s', Suspended inv') ->
  scanning s' = scanning s.
Proof.
  intros Hr. unfold resume in Hr.
  destruct (stage inv) as [st o|st cv rq|st cv]; destruct r as [rc|rf|rj rnd];
    try discriminate; inversion Hr as [Heq]; clear Hr.
  - unfold afterCapture, throw in Heq. destruct rc; inversion Heq; reflexivity.
  - unfold afterFetch, throw in Heq. destruct rf as [|message|ok status];
      try discriminate. destruct (negb ok); inversion Heq; reflexivity.
  - unfold afterJson, finish, throw in Heq. exfalso.
    destruct rj as [message|data]; [discriminate|].
    destruct (skipped data); [discriminate|].
    destruct (best_match data) as [m|]; [|discriminate].
    destruct (seenIsAutoScan (closure inv)); [|discriminate].
    destruct (label m); discriminate.
Qed.

Lemma press_refused_while_scanning (dev : Platform) (w : World)
    (cameraRef : bool) (now : Z) :
  isAutoScan (ui w) = false -> scanning (ui w) = true ->
  step dev w (Press cameraRef now) = Some w.
Proof.
  intros Hm Hs. cbn [step]. rewrite Hm. unfold processFrame.
  cbn [render seenScanning seenIsAutoScan]. rewrite Hm, Hs.
  destruct cameraRef; reflexivity.
Qed.

Lemma serialised_step (dev : Platform) (w w' : World) (ev : Event) :
  serialised w -> notToggle ev -> step dev w ev = Some w' -> serialised w'.
Proof.
  intros (He & Hm & Hscans) Hev Hs.
  destruct ev as [cam now|cam now|i cam now|[i|i] r now]; cbn [step] in Hs.
  - destruct Hev.
  - rewrite Hm in Hs.
    destruct (processFrame (render (ui w)) true cam now (ui w))
      as [[s inv]|] eqn:Hp; inversion Hs; subst; clear Hs;
      [|repeat split; assumption].
    destruct (processFrame_call _ _ _ _ _ _ _ Hp) as (_ & _ & _ & Hmode).
    destruct Hscans as [Hnone|(inv0 & Hone & Hscan)].
    + repeat split; cbn [ui effectRuns manualScans]; try congruence.
      right. exists inv. rewrite Hnone. split; [reflexivity|].
      unfold processFrame in Hp. split_hyp Hp; try discriminate;
        inversion Hp; subst; reflexivity.
    + exfalso. unfold processFrame in Hp.
      cbn [render seenScanning seenIsAutoScan] in Hp.
      rewrite Hm, Hscan in Hp. destruct (negb cam); discriminate.
  - rewrite He in Hs. destruct i as [|[|i]]; cbn in Hs; discriminate.
  - rewrite He in Hs. destruct i as [|[|i]]; cbn in Hs; discriminate.
  - destruct (nth_error (manualScans w) i) as [inv|] eqn:Hn; [|discriminate].
    destruct (resume dev inv r now (ui w)) as [[s c]|] eqn:Hr; [|discriminate].
    pose proof (resume_mode _ _ _ _ _ _ _ Hr) as Hmode.
    destruct Hscans as [Hnone|(inv0 & Hone & Hscan)].
    + rewrite Hnone in Hn. destruct i; discriminate.
    + rewrite Hone in Hn. destruct i as [|i]; [|destruct i; discriminate].
      destruct c as [inv'|o]; inversion Hs; subst; clear Hs;
        repeat split; cbn [ui effectRuns manualScans]; try congruence.
      * right. exists inv'. rewrite Hone. split; [reflexivity|].
        rewrite (resume_suspended_scanning _ _ _ _ _ _ _ Hr). exact Hscan.
      * left. rewrite Hone. reflexivity.
Qed.

Lemma serialised_run (dev : Platform) (evs : list Event) :
  forall w w', serialised w -> Forall notToggle evs ->
               run dev w evs = Some w' -> serialised w'.
Proof.
  induction evs as [|ev evs IH]; intros w w' Hw Hevs Hrun; cbn [run] in Hrun.
  - inversion Hrun; subst; exact Hw.
  - inversion Hevs as [|? ? Hev Hrest]; subst.
    destruct (step dev w ev) as [w1|] eqn:Hs; [|discriminate].
    apply (IH w1 w'); [|exact Hrest|exact Hrun].
    eapply serialised_step; eauto.
Qed.

(** X12. As long as the mode is never switched, manual scans are
    serialised: at most one is out at any time; while one is out
    [scanning] is true and a press of the trigger changes nothing. *)
Theorem manual_scans_one_at_a_time :
  forall (dev : Platform) (evs : list Event) (w : World),
    Forall notToggle evs ->
    run dev mounted evs = Some w ->
    (List.length (manualScans w) <= 1)%nat
    /\ (manualScans w <> [] ->
        scanning (ui w) = true
        /\ forall cameraRef now, step dev w (Press cameraRef now) = Some w).
Proof.
  intros dev evs w Hevs Hrun.
  assert (H0 : serialised mounted).
  { repeat split. left. reflexivity. }
  destruct (serialised_run dev evs mounted w H0 Hevs Hrun)
    as (_ & Hm & [Hnone|(inv & Hone & Hscan)]).
  - rewrite Hnone. split; [cbn; lia|]. intros H. now destruct H.
  - rewrite Hone. split; [cbn; lia|]. intros _. split; [exact Hscan|].
    intros cam now. now apply press_refused_while_scanning.
Qed.

Lemma manual_scans_one_at_a_time_witness :
  Forall notToggle (manualSubmission ++ [Press true 20])
  /\ run phone mounted (manualSubmission ++ [Press true 20])
     = Some (after phone manualSubmission)
  /\ (List.length (manualScans (after phone manualSubmission)) <= 1)%nat.
Proof.
  assert (Hevs : Forall notToggle (manualSubmission ++ [Press true 20]))
    by (repeat constructor).
  assert (Hrun : run phone mounted (manualSubmission ++ [Press true 20])
                 = Some (after phone manualSubmission))
    by (vm_compute; reflexivity).
  split; [exact Hevs|]. split; [exact Hrun|].
  exact (proj1 (manual_scans_one_at_a_time phone _ _ Hevs Hrun)).
Defined.

(** ** Leaving the screen *)

Lemma busy_replace (x y : EffectRun) :
  forall (l : list EffectRun) (i : nat),
    nth_error l i = Some y ->
    (list_sum (map busy (replace i x l)) + busy y
     = list_sum (map busy l) + busy x)%nat.
Proof.
  induction l as [|z l IH]; intros i Hn; destruct i;
    cbn [replace map list_sum fold_right nth_error] in *; try discriminate.
  - inversion Hn; subst. lia.
  - specialize (IH i Hn). unfold list_sum in IH. lia.
Qed.

Lemma unmount_inactive (dev : Platform) (w : World) :
  reachable dev w -> Forall inactive (effectRuns (unmount w)).
Proof.
  intros Hw. destruct (Invariant_reachable dev w Hw) as [Ho _ _].
  unfold unmount; cbn [effectRuns].
  destruct (effectRuns w) as [|e old]; [destruct Ho|].
  destruct Ho as (_ & _ & Hold). constructor; [reflexivity|exact Hold].
Qed.

Lemma loop_inactive (cameraRef : bool) (now : Z) (e : EffectRun) (s : State) :
  isActive e = false ->
  loop cameraRef now e s = (setScanning false s, setPhase Idle e).
Proof. intros Ha. unfold loop. rewrite Ha. reflexivity. Qed.

(** With every effect run inactive, a timer that fires ends its loop
    without a call, and a call that returns arms no timer. *)
Lemma stopped_step (dev : Platform) (w w' : World) (ev : Event) :
  Forall inactive (effectRuns w) -> background ev ->
  step dev w ev = Some w' ->
  Forall inactive (effectRuns w')
  /\ (busyLoops w' <= busyLoops w)%nat
  /\ match ev with
     | TimerFires _ _ _ =>
         S (busyLoops w') = busyLoops w /\ ui w' = setScanning false (ui w)
     | Settles (OfLoop i) _ _ =>
         pending w' (OfLoop i) = None -> S (busyLoops w') = busyLoops w
     | _ => True
     end.
Proof.
  intros Hin Hev Hs.
  destruct ev as [cam now|cam now|i cam now|[i|i] r now]; cbn [step] in Hs;
    try destruct Hev.
  - destruct (nth_error (effectRuns w) i) as [e|] eqn:Hn; [|discriminate].
    destruct (phase e) as [|d|d inv] eqn:Hph; try discriminate.
    pose proof (Forall_nth_error _ _ _ _ Hin Hn) as Ha.
    rewrite (loop_inactive cam now e (ui w) Ha) in Hs.
    inversion Hs; subst; clear Hs. cbn [ui effectRuns].
    pose proof (busy_replace (setPhase Idle e) e _ _ Hn) as Hb.
    unfold busyLoops; cbn [effectRuns].
    assert (B1 : busy e = 1%nat) by (unfold busy; rewrite Hph; reflexivity).
    assert (B2 : busy (setPhase Idle e) = 0%nat) by reflexivity.
    rewrite B1, B2 in Hb.
    split; [apply Forall_replace; auto|]. split; [lia|]. split; [lia|reflexivity].
  - destruct (nth_error (effectRuns w) i) as [e|] eqn:Hn; [|discriminate].
    destruct (phase e) as [|d|d inv] eqn:Hph; try discriminate.
    pose proof (Forall_nth_error _ _ _ _ Hin Hn) as Ha.
    destruct (resume dev inv r now (ui w)) as [[s c]|] eqn:Hr; [|discriminate].
    assert (B1 : busy e = 1%nat) by (unfold busy; rewrite Hph; reflexivity).
    destruct c as [inv'|o]; inversion Hs; subst; clear Hs;
      unfold busyLoops, pending; cbn [ui effectRuns].
    + pose proof (busy_replace (setPhase (Awaiting d inv') e) e _ _ Hn) as Hb.
      assert (B2 : busy (setPhase (Awaiting d inv') e) = 1%nat) by reflexivity.
      rewrite B1, B2 in Hb.
      rewrite (nth_error_replace _ _ _ _ Hn). cbn [setPhase phase].
      split; [apply Forall_replace; auto|]. split; [lia|]. discriminate.
    + pose proof (busy_replace (afterAwait d now e) e _ _ Hn) as Hb.
      assert (B2 : busy (afterAwait d now e) = 0%nat)
        by (unfold busy; rewrite (afterAwait_inactive d now e Ha); reflexivity).
      rewrite B1, B2 in Hb.
      split.
      * apply Forall_replace; auto.
        unfold inactive. destruct (afterAwait_keeps d now e) as (H1 & _).
        now rewrite H1.
      * split; lia.
  - destruct (nth_error (manualScans w) i) as [inv|]; [|discriminate].
    destruct (resume dev inv r now (ui w)) as [[s c]|]; [|discriminate].
    destruct c; inversion Hs; subst; unfold busyLoops; cbn [effectRuns];
      repeat split; auto.
Qed.

(** X13. Leaving the screen stops the scan loops for good: once the
    cleanup has run, whatever timers fire and calls settle afterwards,
    every effect run stays inactive and the number of loops with a timer
    or a call pending never grows; a timer that fires then ends its loop
    without capturing anything, and a call that returns arms no timer. *)
Theorem unmount_stops_every_loop :
  forall (dev : Platform) (w : World) (evs : list Event) (w' : World),
    reachable dev w ->
    Forall background evs ->
    run dev (unmount w) evs = Some w' ->
    Forall inactive (effectRuns w')
    /\ (busyLoops w' <= busyLoops (unmount w))%nat
    /\ (forall i cameraRef now w'',
          step dev w' (TimerFires i cameraRef now) = Some w'' ->
          S (busyLoops w'') = busyLoops w'
          /\ ui w'' = setScanning false (ui w'))
    /\ (forall i r now w'',
          step dev w' (Settles (OfLoop i) r now) = Some w'' ->
          pending w'' (OfLoop i) = None ->
          S (busyLoops w'') = busyLoops w').
Proof.
  intros dev w evs w' Hw Hevs Hrun.
  pose proof (unmount_inactive dev w Hw) as H0.
  assert (Hgen : Forall inactive (effectRuns w')
                 /\ (busyLoops w' <= busyLoops (unmount w))%nat).
  { revert Hevs Hrun H0. generalize (unmount w). clear Hw w.
    induction evs as [|ev evs IH]; intros w Hevs Hrun H0; cbn [run] in Hrun.
    - inversion Hrun; subst. split; [exact H0|lia].
    - inversion Hevs as [|? ? Hev Hrest]; subst.
      destruct (step dev w ev) as [w1|] eqn:Hs; [|discriminate].
      destruct (stopped_step dev w w1 ev H0 Hev Hs) as (H1 & H2 & _).
      destruct (IH w1 Hrest Hrun H1) as (H3 & H4). split; [exact H3|lia]. }
  destruct Hgen as (Hin & Hle). split; [exact Hin|]. split; [exact Hle|].
  split.
  - intros i cam now w'' Hs.
    exact (proj2 (proj2
      (stopped_step dev w' w'' (TimerFires i cam now) Hin I Hs))).
  - intros i r now w'' Hs.
    exact (proj2 (proj2
      (stopped_step dev w' w'' (Settles (OfLoop i) r now) Hin I Hs))).
Qed.

Lemma unmount_stops_every_loop_witness :
  reachable phone (after phone streamingFound)
  /\ Forall background [TimerFires 0 true 300]
  /\ busyLoops (unmount (after phone streamingFound)) = 1%nat
  /\ exists w',
       run phone (unmount (after phone streamingFound)) [TimerFires 0 true 300]
       = Some w'
       /\ (busyLoops w' <= 1)%nat
       /\ Forall inactive (effectRuns w').
Proof.
  pose proof (after_reachable phone streamingFound) as Hreach.
  assert (Hevs : Forall background [TimerFires 0 true 300])
    by (repeat constructor).
  split; [exact Hreach|]. split; [exact Hevs|]. split; [reflexivity|].
  eexists. split; [vm_compute; reflexivity|].
  match goal with
  | |- (busyLoops ?w' <= _)%nat /\ _ =>
      assert (Hrun : run phone (unmount (after phone streamingFound))
                       [TimerFires 0 true 300] = Some w')
        by (vm_compute; reflexivity);
      destruct (unmount_stops_every_loop phone _ _ _ Hreach Hevs Hrun)
        as (Hin & Hle & _)
  end.
  split; [exact Hle|exact Hin].
Defined.

(** ** Feedback, connectivity and the shape of the requests *)

Lemma throw_feedback (inv : Invocation) (message : string) (s : State) :
  feedback (fst (throw inv message s)) = feedback s.
Proof.
  unfold throw, finally_block, catch_block, feedback.
  destruct (isManualScan inv); reflexivity.
Qed.

Lemma finish_feedback (inv : Invocation) (startTime now : Z) (m : option Match)
    (s : State) :
  feedback (fst (finish inv startTime now m s)) = feedback s.
Proof. unfold finish, finally_block, feedback. branches; reflexivity. Qed.

Lemma resume_feedback :
  forall (dev : Platform) (inv : Invocation) (r : Settlement) (now : Z)
         (s s' : State) (c : Control),
    resume dev inv r now s = Some (s', c) ->
    (withoutMatch r -> feedback s' = feedback s)
    /\ (forall data random m,
          r = JsonSettled (Json data) random ->
          skipped data = false -> best_match data = Some m ->
          exists spoken,
            feedback s' = (spoken ++ HapticNotification :: feedback s)%list
            /\ (spoken = []
                \/ spoken
                   = [Speak ("Target Confirmed. " ++ JS.template (label m))])
            /\ (isManualScan inv = true -> spoken <> [])).
Proof.
  intros dev inv r now s s' c Hr. unfold resume in Hr.
  destruct (stage inv) as [st o|st cv rq|st cv]; destruct r as [rc|rf|rj rnd];
    try discriminate; inversion Hr as [Heq]; clear Hr;
    apply (f_equal fst) in Heq; cbn [fst] in Heq; subst s'.
  - split; [|intros data random m H; discriminate]. intros _.
    unfold afterCapture. destruct rc; [apply throw_feedback|reflexivity].
  - split; [|intros data random m H; discriminate]. intros _.
    unfold afterFetch. destruct rf as [|message|ok status];
      try apply throw_feedback.
    destruct (negb ok); [apply throw_feedback|reflexivity].
  - split.
    + intros Hno. unfold afterJson. destruct rj as [message|data];
        [apply throw_feedback|]. cbn [withoutMatch] in Hno.
      destruct (skipped data) eqn:Hsk; [reflexivity|].
      destruct Hno as [Hno|Hno]; [discriminate|]. rewrite Hno. cbv zeta.
      rewrite finish_feedback. destruct (metrics_fps data); branches; reflexivity.
    + intros data random m Hrj Hsk Hbm. inversion Hrj; subst; clear Hrj.
      unfold afterJson. rewrite Hsk, Hbm. cbv zeta.
      set (s0 := match metrics_fps data with
                 | Some f =>
                     if seenIsAutoScan (closure inv) && JS.truthy f
                     then addLog ("FPS: " ++ toFixed1 dev f) (setFps f s)
                     else s
                 | None => s
                 end).
      assert (H0 : feedback s0 = feedback s)
        by (unfold s0; destruct (metrics_fps data); branches; reflexivity).
      set (s1 := match bbox m with
                 | Some b =>
                     setActiveBox
                       (Some {| box := scaledBox cv b; boxLabel := label m |})
                       (setResult (Some m) s0)
                 | None => setResult (Some m) s0
                 end).
      assert (H1 : feedback s1 = feedback s)
        by (unfold s1; destruct (bbox m); exact H0).
      destruct (isManualScan inv
                || seenIsAutoScan (closure inv) && (0.9 <? random)%float)
        eqn:Hsay.
      * exists [Speak ("Target Confirmed. " ++ JS.template (label m))].
        split; [|split; [right; reflexivity|intros _; discriminate]].
        destruct (seenIsAutoScan (closure inv)); [destruct (label m)|];
          rewrite ?finish_feedback, ?throw_feedback;
          unfold feedback in *; cbn; now rewrite H1.
      * exists []. split; [|split; [left; reflexivity|]].
        -- destruct (seenIsAutoScan (closure inv)); [destruct (label m)|];
             rewrite ?finish_feedback, ?throw_feedback;
             unfold feedback in *; cbn; now rewrite H1.
        -- intros Hman. rewrite Hman in Hsay. discriminate.
Qed.

Lemma resume_match_without_label (dev : Platform) (inv : Invocation)
    (data : Data) (random : float) (now : Z) (s s' : State) (c : Control)
    (m : Match) :
  resume dev inv (JsonSettled (Json data) random) now s = Some (s', c) ->
  skipped data = false -> best_match data = Some m ->
  seenIsAutoScan (closure inv) = true -> label m = None ->
  c = Returned (Failure (typeErrorMessage dev)).
Proof.
  intros Hr Hsk Hbm Hauto Hlabel. unfold resume in Hr.
  destruct (stage inv) as [st o|st cv rq|st cv]; try discriminate.
  inversion Hr as [Heq]; clear Hr. unfold afterJson in Heq.
  rewrite Hsk, Hbm, Hauto, Hlabel in Heq. cbv zeta in Heq.
  unfold throw in Heq. inversion Heq; reflexivity.
Qed.

(** X14. The "target confirmed" feedback follows the body of the
    response, not the way the call ends.  A settlement without a match to
    show (a capture or a request that fails, a response that is refused or
    cannot be parsed, a skipped frame, an empty result) adds no haptic and
    no speech.  A body with a match adds the success haptic once, and the
    sentence "Target Confirmed. <label>" whenever the scan is a manual
    one; this also holds for the streaming match without a label, after
    which the call fails on [match.label.toUpperCase()] and ends in the
    [catch] block. *)
Theorem feedback_only_for_a_match :
  forall (dev : Platform) (inv : Invocation) (r : Settlement) (now : Z)
         (s s' : State) (c : Control),
    resume dev inv r now s = Some (s', c) ->
    (withoutMatch r -> feedback s' = feedback s)
    /\ (forall data random m,
          r = JsonSettled (Json data) random ->
          skipped data = false -> best_match data = Some m ->
          (exists spoken,
              feedback s' = (spoken ++ HapticNotification :: feedback s)%list
              /\ (spoken = []
                  \/ spoken
                     = [Speak ("Target Confirmed. " ++ JS.template (label m))])
              /\ (isManualScan inv = true -> spoken <> []))
          /\ (seenIsAutoScan (closure inv) = true -> label m = None ->
              c = Returned (Failure (typeErrorMessage dev)))).
Proof.
  intros dev inv r now s s' c Hr.
  destruct (resume_feedback dev inv r now s s' c Hr) as [Hnone Hmatch].
  split; [exact Hnone|].
  intros data random m Hrj Hsk Hbm.
  split; [exact (Hmatch data random m Hrj Hsk Hbm)|].
  intros Hauto Hlabel. subst r.
  exact (resume_match_without_label dev inv data random now s s' c m
           Hr Hsk Hbm Hauto Hlabel).
Qed.

Lemma feedback_only_for_a_match_witness :
  exists s',
    resume phone
      {| isManualScan := true; closure := render initialState;
         stage := AwaitJson 0 (cover phone vga) |}
      (JsonSettled (Json nothingFound) 0) 5 initialState
    = Some (s', Returned (Success None))
    /\ feedback s' = feedback initialState.
Proof.
  eexists. split; [reflexivity|].
  match goal with
  | |- feedback ?s' = _ =>
      assert (Hr : resume phone
                     {| isManualScan := true; closure := render initialState;
                        stage := AwaitJson 0 (cover phone vga) |}
                     (JsonSettled (Json nothingFound) 0) 5 initialState
                   = Some (s', Returned (Success None))) by reflexivity
  end.
  apply (proj1 (feedback_only_for_a_match phone _ _ _ _ _ _ Hr)).
  right. reflexivity.
Defined.

Lemma resume_returned_connected (dev : Platform) (inv : Invocation)
    (r : Settlement) (now : Z) (s s' : State) (o : Outcome) :
  resume dev inv r now s = Some (s', Returned o) ->
  scanning s' = false
  /\ match o with
     | Failure _ => isConnected s' = false
     | _ => isConnected s' = isConnected s
     end.
Proof.
  intros Hr. destruct o as [m| |message].
  - unfold resume in Hr.
    destruct (stage inv) as [st op|st cv rq|st cv]; destruct r as [rc|rf|rj rnd];
      try discriminate; inversion Hr as [Heq]; clear Hr.
    + unfold afterCapture, throw in Heq. destruct rc; discriminate.
    + unfold afterFetch, throw in Heq. split_hyp Heq; discriminate.
    + unfold afterJson, finish, throw in Heq.
      destruct rj as [message|data]; [discriminate|].
      destruct (skipped data); [discriminate|].
      destruct (metrics_fps data) as [f|];
        destruct (best_match data) as [bm|];
        split_hyp Heq; try discriminate; inversion Heq; subst;
        split; reflexivity.
  - destruct (resume_skipped dev inv r now s s' Hr) as (_ & _ & _ & _ & _ & H).
    split; [exact H|].
    unfold resume in Hr.
    destruct (stage inv) as [st op|st cv rq|st cv]; destruct r as [rc|rf|rj rnd];
      try discriminate; inversion Hr as [Heq]; clear Hr.
    + unfold afterCapture, throw in Heq. destruct rc; discriminate.
    + unfold afterFetch, throw in Heq. split_hyp Heq; discriminate.
    + unfold afterJson, finish, throw in Heq.
      destruct rj as [message|data]; [discriminate|].
      destruct (skipped data); [inversion Heq; subst; reflexivity|].
      split_hyp Heq; discriminate.
  - destruct (resume_failure dev inv r now s s' message Hr) as (H1 & _ & H3 & _).
    split; assumption.
Qed.

(** X15. A call of [processFrame] that runs from its call to its return
    always leaves [scanning] false, and leaves the connectivity flag
    telling how it ended: offline after a failure, online after a result
    or a skipped frame. *)
Theorem whole_call_ends_idle_and_reports_connectivity :
  forall (dev : Platform) (r0 : Render) (manual cameraRef : bool) (start : Z)
         (rc : CaptureResult) (rf : FetchResult) (rj : JsonResult)
         (random : float) (now : Z) (s s' : State) (o : Outcome),
    processFrameWhole dev r0 manual cameraRef start rc rf rj random now s
      = Some (s', o) ->
    scanning s' = false
    /\ isConnected s'
       = match o with
         | Failure _ => false
         | _ => true
         end.
Proof.
  intros dev r0 manual cameraRef start rc rf rj random now s s' o Hw.
  unfold processFrameWhole in Hw.
  destruct (processFrame r0 manual cameraRef start s) as [[u0 inv0]|] eqn:Hp;
    [|discriminate].
  destruct (processFrame_call _ _ _ _ _ _ _ Hp) as (_ & _ & [op Hst] & _).
  destruct (afterCapture dev inv0 start rc u0) as [u1 [inv1|o1]] eqn:Hc.
  - destruct (resume dev inv1 (FetchSettled rf) now u1)
      as [[u2 [inv2|o2]]|] eqn:Hf; try discriminate.
    + destruct (resume dev inv2 (JsonSettled rj random) now u2)
        as [[u3 [inv3|o3]]|] eqn:Hj; try discriminate.
      inversion Hw; subst; clear Hw.
      destruct (resume_returned_connected _ _ _ _ _ _ _ Hj) as [H1 H2].
      split; [exact H1|].
      assert (Hu2 : isConnected u2 = true).
      { unfold resume in Hf. destruct (stage inv1); try discriminate.
        inversion Hf as [Heq]. unfold afterFetch, throw in Heq.
        destruct rf as [|message|ok status]; try discriminate.
        destruct (negb ok); inversion Heq; subst. reflexivity. }
      destruct o; [now rewrite H2|now rewrite H2|exact H2].
    + inversion Hw; subst; clear Hw.
      destruct (resume_returned_connected _ _ _ _ _ _ _ Hf) as [H1 H2].
      split; [exact H1|].
      destruct o; try exact H2; exfalso; unfold resume in Hf;
        destruct (stage inv1); try discriminate; inversion Hf as [Heq];
        unfold afterFetch, throw in Heq; split_hyp Heq; discriminate.
  - inversion Hw; subst; clear Hw.
    assert (Hr : resume dev inv0 (CaptureSettled rc) now u0
                 = Some (s', Returned o)).
    { unfold resume. rewrite Hst, Hc. reflexivity. }
    destruct (resume_returned_connected _ _ _ _ _ _ _ Hr) as [H1 H2].
    split; [exact H1|].
    destruct o; try exact H2; exfalso; unfold afterCapture, throw in Hc;
      destruct rc; discriminate.
Qed.

Lemma whole_call_ends_idle_and_reports_connectivity_witness :
  exists s',
    manualScan phone vga (found deer) initialState
    = Some (s', Success (Some deer))
    /\ scanning s' = false /\ isConnected s' = true.
Proof.
  eexists. split; [reflexivity|].
  match goal with
  | |- scanning ?s' = _ /\ _ =>
      assert (Hw : processFrameWhole phone (render initialState) true true 0
                     (Captured vga) (Response true 200) (Json (found deer))
                     0%float 0 initialState
                   = Some (s', Success (Some deer))) by reflexivity
  end.
  exact (whole_call_ends_idle_and_reports_connectivity phone _ _ _ _ _ _ _ _ _
           _ _ _ Hw).
Defined.

Lemma Math_max_zero_notNegative (y : float) : notNegative (JS.Math_max 0 y).
Proof.
  unfold notNegative, JS.Math_max. change (PrimFloat.is_nan 0) with false.
  cbn [orb]. destruct (PrimFloat.is_nan y); [reflexivity|].
  destruct (0 <? y)%float eqn:H0; [now apply ltb_asym|].
  destruct (y <? 0)%float; reflexivity.
Qed.

Lemma processFrame_options (r : Render) (manual cameraRef : bool) (now : Z)
    (s s' : State) (inv : Invocation) :
  processFrame r manual cameraRef now s = Some (s', inv) ->
  capturedAsClosure inv.
Proof.
  unfold processFrame. intros H.
  destruct (negb cameraRef); [discriminate|].
  destruct (seenScanning r && negb (seenIsAutoScan r)); [discriminate|].
  inversion H; subst. reflexivity.
Qed.

Lemma resume_suspended_options (dev : Platform) (inv inv' : Invocation)
    (r : Settlement) (now : Z) (s s' : State) :
  resume dev inv r now s = Some (s', Suspended inv') ->
  capturedAsClosure inv'.
Proof.
  intros Hr. unfold resume in Hr.
  destruct (stage inv) as [st o|st cv rq|st cv]; destruct r as [rc|rf|rj rnd];
    try discriminate; inversion Hr as [Heq]; clear Hr.
  - unfold afterCapture, throw in Heq. destruct rc; inversion Heq; subst.
    exact I.
  - unfold afterFetch, throw in Heq. destruct rf as [|message|ok status];
      try discriminate. destruct (negb ok); inversion Heq; subst. exact I.
  - unfold afterJson, finish, throw in Heq. exfalso.
    destruct rj as [message|data]; [discriminate|].
    destruct (skipped data); [discriminate|].
    destruct (best_match data) as [m|]; [|discriminate].
    destruct (seenIsAutoScan (closure inv)); [|discriminate].
    destruct (label m); discriminate.
Qed.

Lemma afterAwait_shape (delay : float) (now : Z) (e : EffectRun) :
  notNegative delay -> loopShape (afterAwait delay now e).
Proof.
  intros H. unfold afterAwait.
  destruct (isActive (setLastFrameTime now e)
            && seenIsAutoScan (seen (setLastFrameTime now e)));
    [exact H|exact I].
Qed.

Lemma loop_shape (cameraRef : bool) (now : Z) (e e' : EffectRun) (s s' : State) :
  loop cameraRef now e s = (s', e') -> loopShape e'.
Proof.
  unfold loop. intros H.
  destruct (negb (isActive e) || negb (seenIsAutoScan (seen e))).
  - inversion H; subst. exact I.
  - destruct (processFrame (seen e) false cameraRef now s) as [[s1 inv]|] eqn:Hp;
      inversion H; subst; clear H.
    + split; [apply Math_max_zero_notNegative|].
      exact (processFrame_options _ _ _ _ _ _ _ Hp).
    + apply afterAwait_shape. apply Math_max_zero_notNegative.
Qed.

Lemma effect_shape (cameraRef : bool) (now : Z) (s s' : State) (e : EffectRun) :
  effect cameraRef now s = (s', e) -> loopShape e.
Proof.
  unfold effect. intros H. destruct (isAutoScan s).
  - destruct (loop cameraRef now _ s) as [s1 e1] eqn:Hl.
    inversion H; subst. exact (loop_shape _ _ _ _ _ _ Hl).
  - inversion H; subst. exact I.
Qed.

Lemma shaped_step (dev : Platform) (w w' : World) (ev : Event) :
  shaped w -> step dev w ev = Some w' -> shaped w'.
Proof.
  intros [Hl Hp] Hs.
  destruct ev as [cam now|cam now|i cam now|[i|i] r now]; cbn [step] in Hs.
  - destruct (effect cam now (setIsAutoScan negb (ui w))) as [s e] eqn:He.
    inversion Hs; subst; clear Hs. split; cbn; [|exact Hp].
    constructor; [exact (effect_shape _ _ _ _ _ He)|].
    destruct (effectRuns w) as [|e0 old]; [constructor|].
    inversion Hl; subst. constructor; assumption.
  - destruct (isAutoScan (ui w)); [discriminate|].
    destruct (processFrame (render (ui w)) true cam now (ui w))
      as [[s inv]|] eqn:Hpf; inversion Hs; subst; clear Hs;
      [|split; assumption].
    split; cbn; [exact Hl|]. apply Forall_app. split; [exact Hp|].
    constructor; [|constructor].
    exact (processFrame_options _ _ _ _ _ _ _ Hpf).
  - destruct (nth_error (effectRuns w) i) as [e|] eqn:Hn; [|discriminate].
    destruct (phase e); try discriminate.
    destruct (loop cam now e (ui w)) as [s e'] eqn:Hloop.
    inversion Hs; subst; clear Hs. split; cbn; [|exact Hp].
    apply Forall_replace; [exact Hl|]. exact (loop_shape _ _ _ _ _ _ Hloop).
  - destruct (nth_error (effectRuns w) i) as [e|] eqn:Hn; [|discriminate].
    destruct (phase e) as [|d|d inv] eqn:Hph; try discriminate.
    destruct (resume dev inv r now (ui w)) as [[s c]|] eqn:Hr; [|discriminate].
    pose proof (Forall_nth_error _ _ _ _ Hl Hn) as Hle.
    unfold loopShape in Hle. rewrite Hph in Hle. destruct Hle as [Hd _].
    destruct c as [inv'|o]; inversion Hs; subst; clear Hs; split; cbn;
      try exact Hp; apply Forall_replace; try exact Hl.
    + split; [exact Hd|]. exact (resume_suspended_options _ _ _ _ _ _ _ Hr).
    + now apply afterAwait_shape.
  - destruct (nth_error (manualScans w) i) as [inv|] eqn:Hn; [|discriminate].
    destruct (resume dev inv r now (ui w)) as [[s c]|] eqn:Hr; [|discriminate].
    destruct c as [inv'|o]; inversion Hs; subst; clear Hs; split; cbn;
      try exact Hl.
    + apply Forall_replace; [exact Hp|].
      exact (resume_suspended_options _ _ _ _ _ _ _ Hr).
    + apply Forall_remove; exact Hp.
Qed.

Lemma shaped_reachable (dev : Platform) (w : World) :
  reachable dev w -> shaped w.
Proof.
  induction 1 as [|w w' ev Hw IH Hs].
  - split; cbn; repeat constructor.
  - eapply shaped_step; eauto.
Qed.

(** X16. What is captured and what is posted depends on the caller alone.
    In every reachable state a call of the trigger that waits for its
    photo asked for quality 0.8 at scale 1, and its request is "scan.jpg"
    without a frame index; a call of the auto-scan loop asked for quality
    0.5 at scale 0.5, and its request is "frame.jpg" with the frame index
    of its closure. *)
Theorem capture_and_request_follow_the_caller :
  forall (dev : Platform) (w : World) (t : Target) (inv : Invocation),
    reachable dev w ->
    pending w t = Some inv ->
    match stage inv with
    | AwaitCapture _ options =>
        options
        = match t with
          | OfPress _ => {| quality := 0.8; captureScale := 1 |}
          | OfLoop _ => {| quality := 0.5; captureScale := 0.5 |}
          end
    | AwaitFetch _ _ request =>
        fileName request
        = match t with
          | OfPress _ => "scan.jpg"
          | OfLoop _ => "frame.jpg"
          end
        /\ frame_idx request
           = match t with
             | OfPress _ => None
             | OfLoop _ => Some (JS.toString (seenFrameCounter (closure inv)))
             end
    | AwaitJson _ _ => True
    end.
Proof.
  intros dev w t inv Hw Hp.
  destruct (Invariant_reachable dev w Hw) as [_ Hl Hm].
  destruct (shaped_reachable dev w Hw) as [Sl Sm].
  destruct t as [i|i].
  - destruct (pending_loop w i inv Hp) as (e & delay & Hn & Hph).
    pose proof (Forall_nth_error _ _ _ _ Hl Hn) as Hle.
    pose proof (Forall_nth_error _ _ _ _ Sl Hn) as Hse.
    unfold loopCall in Hle. unfold loopShape in Hse. rewrite Hph in Hle, Hse.
    destruct Hle as (_ & L2 & L3 & L4). destruct Hse as [_ Hcap].
    unfold wellFormed in L4. unfold capturedAsClosure in Hcap.
    destruct (stage inv) as [st o|st cv rq|st cv]; [| |exact I].
    + rewrite Hcap. unfold captureOptions. rewrite L2, L3. reflexivity.
    + rewrite L4. unfold formRequest. rewrite L2, L3. split; reflexivity.
  - cbn [pending] in Hp.
    pose proof (Forall_nth_error _ _ _ _ Hm Hp) as (_ & P2 & P3).
    pose proof (Forall_nth_error _ _ _ _ Sm Hp) as Hcap.
    unfold wellFormed in P3. unfold capturedAsClosure in Hcap.
    destruct (stage inv) as [st o|st cv rq|st cv]; [| |exact I].
    + rewrite Hcap. unfold captureOptions. rewrite P2. reflexivity.
    + rewrite P3. unfold formRequest. rewrite P2. split; reflexivity.
Qed.

Lemma capture_and_request_follow_the_caller_witness :
  reachable phone (after phone manualSubmission)
  /\ exists inv,
       pending (after phone manualSubmission) (OfPress 0) = Some inv
       /\ match stage inv with
          | AwaitFetch _ _ request =>
              fileName request = "scan.jpg" /\ frame_idx request = None
          | _ => False
          end.
Proof.
  pose proof (after_reachable phone manualSubmission) as Hreach.
  split; [exact Hreach|]. eexists. split; [reflexivity|].
  exact (capture_and_request_follow_the_caller phone _ (OfPress 0) _ Hreach
           eq_refl).
Defined.

(** X17. The delay that the loop hands to [setTimeout] is never negative:
    in every reachable state the delay of every pending timer, and the
    delay every suspended loop will arm its timer with, is not below 0. *)
Theorem timer_delay_never_negative :
  forall (dev : Platform) (w : World) (i : nat) (e : EffectRun),
    reachable dev w ->
    nth_error (effectRuns w) i = Some e ->
    match phase e with
    | Idle => True
    | TimerPending delay | Awaiting delay _ => (delay <? 0)%float = false
    end.
Proof.
  intros dev w i e Hw Hn.
  destruct (shaped_reachable dev w Hw) as [Sl _].
  pose proof (Forall_nth_error _ _ _ _ Sl Hn) as Hse. unfold loopShape in Hse.
  destruct (phase e); [exact I|exact Hse|exact (proj1 Hse)].
Qed.

Lemma timer_delay_never_negative_witness :
  reachable phone (after phone streamingFound)
  /\ exists e delay,
       nth_error (effectRuns (after phone streamingFound)) 0 = Some e
       /\ phase e = TimerPending delay
       /\ (delay <? 0)%float = false.
Proof.
  pose proof (after_reachable phone streamingFound) as Hreach.
  split; [exact Hreach|]. eexists. eexists.
  split; [reflexivity|]. split; [reflexivity|].
  exact (timer_delay_never_negative phone _ 0 _ Hreach eq_refl).
Defined.
